(** * Groq API cookbook notebooks: a shallow embedding and its properties

    The development follows three tutorial notebooks:
    - [tutorials/image_moderation.ipynb] (the Gradio image-moderation app,
      and the Mixture-of-Agents pipeline that is stored in the same file),
    - [tutorials/llama-guard-safe-chatbot/Llama-Guard-4-Ensuring-Safe-Chatbot.ipynb],
    - [tutorials/multimodal-image-processing/llama-3.2-image-classification.ipynb].

    Python functions become Rocq functions.  Code that talks to the hosted
    inference endpoint threads an abstract world [W] through every call
    and records each request in a log; a Python exception is the [Raised]
    constructor of [Outcome]. *)

From Stdlib Require Import List String Ascii Strings.Byte NArith ZArith Lia Bool Arith.
From Stdlib Require Import Sorting.Sorted Sorting.Permutation DecimalString QArith.
Import ListNotations.
Set Warnings "-register-all".
Close Scope Q_scope.
Local Open Scope string_scope.
Local Open Scope list_scope.

(** ** Python runtime: outcomes of calls and the state-and-exception monad *)

Module Py.

(** A Python exception: the class name and [str(e)]. *)
Record exn : Type := Exception { exn_class : string; exn_str : string }.

Inductive Outcome (A : Type) : Type :=
| Returned (a : A)
| Raised (e : exn).
Arguments Returned {A} a.
Arguments Raised {A} e.

(** A computation over a store [S]: the store survives a raise, as the
    globals of a notebook do. *)
Definition M (S A : Type) : Type := S -> Outcome A * S.

Definition ret {S A} (a : A) : M S A := fun s => (Returned a, s).
Definition raise {S A} (e : exn) : M S A := fun s => (Raised e, s).
Definition bind {S A B} (m : M S A) (k : A -> M S B) : M S B :=
  fun s => match m s with
           | (Returned a, s') => k a s'
           | (Raised e, s') => (Raised e, s')
           end.
(** [try: m  except Exception as e: h e] *)
Definition try_except {S A} (m : M S A) (h : exn -> M S A) : M S A :=
  fun s => match m s with
           | (Returned a, s') => (Returned a, s')
           | (Raised e, s') => h e s'
           end.
Definition lift {S A} (o : Outcome A) : M S A := fun s => (o, s).

(** [for x in xs: body x] *)
Fixpoint for_each {S A} (xs : list A) (body : A -> M S unit) : M S unit :=
  match xs with
  | [] => ret tt
  | x :: rest => bind (body x) (fun _ => for_each rest body)
  end.

(** Strings are sequences of characters; [s[:n]] keeps the first [n]. *)
Definition prefix_slice (n : nat) (s : string) : string := substring 0 n s.

Definition newline : string := String (ascii_of_nat 10) EmptyString.
Definition dquote : ascii := ascii_of_nat 34.

(** A text between double quotes. *)
Definition quoted (text : string) : string :=
  String dquote text ++ String dquote EmptyString.

(** [str(i)] for a non-negative integer. *)
Definition str_of_nat (n : nat) : string :=
  NilZero.string_of_uint (Nat.to_uint n).

(** [s.endswith(suffix)] *)
Definition endswith (s suffix : string) : bool :=
  let n := String.length s in
  let m := String.length suffix in
  (m <=? n)%nat && String.eqb (substring (n - m) m s) suffix.

(** [sub in s] *)
Definition contains (sub s : string) : bool :=
  match String.index 0 sub s with Some _ => true | None => false end.

(** What is left of [s] after the prefix [p], if [s] starts with [p]. *)
Fixpoint strip_prefix (p s : string) : option string :=
  match p, s with
  | EmptyString, _ => Some s
  | String a p', String b s' => if Ascii.eqb a b then strip_prefix p' s' else None
  | _, EmptyString => None
  end.

(** The pieces of [s] between separator characters; [cur] is the piece
    being read. *)
Fixpoint split_on (sep : ascii -> bool) (s cur : string) : list string :=
  match s with
  | EmptyString => [cur]
  | String c r =>
      if sep c then cur :: split_on sep r EmptyString
      else split_on sep r (cur ++ String c EmptyString)
  end.

(** [s.lower()], on the letters A to Z; other characters are kept, which
    is all a comparison with a lower-case ASCII word depends on. *)
Definition lower_char (c : ascii) : ascii :=
  let n := N_of_ascii c in
  if ((65 <=? n) && (n <=? 90))%N then ascii_of_N (n + 32) else c.

Fixpoint lower (s : string) : string :=
  match s with
  | EmptyString => EmptyString
  | String c r => String (lower_char c) (lower r)
  end.

Fixpoint repeat_string (n : nat) (s : string) : string :=
  match n with
  | O => EmptyString
  | S n' => s ++ repeat_string n' s
  end.

(** [sorted(xs)] on strings: the ascending rearrangement under the
    lexicographic order of the characters. *)
Fixpoint insert_sorted (x : string) (xs : list string) : list string :=
  match xs with
  | [] => [x]
  | y :: rest => if String.leb x y then x :: xs else y :: insert_sorted x rest
  end.

Definition sorted (xs : list string) : list string :=
  fold_right insert_sorted [] xs.

(** What [sorted] promises: an ascending list. *)
Definition ascending : list string -> Prop :=
  Sorted (fun a b => String.leb a b = true).

End Py.
Import Py.

Declare Scope py_scope.
Delimit Scope py_scope with py.
Notation "x <- m ;; k" := (bind m (fun x => k))
  (at level 61, m at next level, right associativity) : py_scope.
Notation "m ;;; k" := (bind m (fun _ => k))
  (at level 61, right associativity) : py_scope.

(** ** [base64.b64encode] and its inverse (RFC 4648, standard alphabet) *)

Module Base64.

Definition alphabet : list ascii :=
  list_ascii_of_string
    "ABCDEFGHIJKLMNOPQRSTUVWXYZabcdefghijklmnopqrstuvwxyz0123456789+/".

Definition pad : ascii := "="%char.

(** Sextet to character and back. *)
Definition b2a (i : N) : ascii := nth (N.to_nat i) alphabet pad.

Definition a2b (c : ascii) : option N :=
  let n := N_of_ascii c in
  if ((65 <=? n) && (n <=? 90))%N then Some (n - 65)%N
  else if ((97 <=? n) && (n <=? 122))%N then Some (n - 71)%N
  else if ((48 <=? n) && (n <=? 57))%N then Some (n + 4)%N
  else if (n =? 43)%N then Some 62%N
  else if (n =? 47)%N then Some 63%N
  else None.

Definition byte_of_N (n : N) : byte :=
  match Byte.of_N (n mod 256) with Some b => b | None => x00 end.

(** Three input bytes give four characters; a tail of one or two bytes
    is padded with [=]. *)
Fixpoint b64encode (bs : list byte) : string :=
  match bs with
  | [] => EmptyString
  | [x] =>
      let a := Byte.to_N x in
      String (b2a (a / 4)) (String (b2a ((a mod 4) * 16))
        (String pad (String pad EmptyString)))
  | [x; y] =>
      let a := Byte.to_N x in
      let b := Byte.to_N y in
      String (b2a (a / 4)) (String (b2a ((a mod 4) * 16 + b / 16))
        (String (b2a ((b mod 16) * 4)) (String pad EmptyString)))
  | x :: y :: z :: rest =>
      let a := Byte.to_N x in
      let b := Byte.to_N y in
      let c := Byte.to_N z in
      String (b2a (a / 4)) (String (b2a ((a mod 4) * 16 + b / 16))
        (String (b2a ((b mod 16) * 4 + c / 64)) (String (b2a (c mod 64))
          (b64encode rest))))
  end%N.

Definition is_empty (s : string) : bool :=
  match s with EmptyString => true | _ => false end.

(** The decoder the receiving side applies to the payload: groups of four
    characters, padding only in the last group. *)
Fixpoint b64decode (s : string) : option (list byte) :=
  match s with
  | EmptyString => Some []
  | String c1 (String c2 (String c3 (String c4 rest))) =>
      match a2b c1, a2b c2 with
      | Some s1, Some s2 =>
          let b1 := byte_of_N (s1 * 4 + s2 / 16) in
          if Ascii.eqb c3 pad then
            if Ascii.eqb c4 pad && is_empty rest then Some [b1] else None
          else
            match a2b c3 with
            | Some s3 =>
                let b2 := byte_of_N ((s2 mod 16) * 16 + s3 / 4) in
                if Ascii.eqb c4 pad then
                  if is_empty rest then Some [b1; b2] else None
                else
                  match a2b c4, b64decode rest with
                  | Some s4, Some tl =>
                      Some (b1 :: b2 :: byte_of_N ((s3 mod 4) * 64 + s4) :: tl)
                  | _, _ => None
                  end
            | None => None
            end
      | _, _ => None
      end
  | _ => None
  end%N.

(** [f"data:image/jpeg;base64,{base64_image}"] *)
Definition data_uri_prefix : string := "data:image/jpeg;base64,".
Definition data_uri (base64_image : string) : string :=
  data_uri_prefix ++ base64_image.

(** The payload of a data URI: what follows the first comma. *)
Fixpoint after_comma (s : string) : option string :=
  match s with
  | EmptyString => None
  | String c rest => if Ascii.eqb c ","%char then Some rest else after_comma rest
  end.

Definition decode_data_uri (uri : string) : option (list byte) :=
  match after_comma uri with
  | Some payload => b64decode payload
  | None => None
  end.

(** The characters an encoding is made of. *)
Definition payload_char (c : ascii) : Prop := In c alphabet \/ c = pad.

End Base64.

(** ** The hosted chat-completion endpoint, as the notebooks use it *)

Module Groq.

Inductive part : Type :=
| text_part (text : string)
| image_url_part (url : string).

Inductive content : Type :=
| text_content (s : string)
| parts_content (ps : list part).

Record message : Type := Message { role : string; body : content }.

(** The arguments of [client.chat.completions.create]; [api_key] is the
    key the client was built with ([None]: read from the environment). *)
Record request : Type := Request {
  api_key : option string;
  messages : list message;
  model : string;
  response_format : option string
}.

(** The remote service: it answers a request with
    [choices[0].message.content] or the call raises, and the world moves
    on, so the same request may be answered differently the next time. *)
Class Client (W : Type) : Type :=
  { create : request -> W -> Outcome string * W }.

(** One round trip, as the log keeps it. *)
Record exchange : Type := Exchange { sent : request; got : Outcome string }.

(** The store of a running notebook: the world, the log of round trips
    and the notebook's own globals. *)
Record store (W G : Type) : Type := Store {
  world : W;
  calls : list exchange;
  globals : G
}.
Arguments Store {W G} _ _ _.
Arguments world {W G} _.
Arguments calls {W G} _.
Arguments globals {W G} _.

Definition chat_completions_create {W G} `{Client W} (req : request)
  : M (store W G) string :=
  fun s =>
    let (o, w') := create req (world s) in
    (o, Store w' (calls s ++ [Exchange req o]) (globals s)).

(** The store after one more round trip. *)
Definition logged {W G} (s : store W G) (req : request) (o : Outcome string)
           (w' : W) : store W G :=
  Store w' (calls s ++ [Exchange req o]) (globals s).

Definition get_globals {W G} : M (store W G) G :=
  fun s => (Returned (globals s), s).
Definition set_globals {W G} (g : G) : M (store W G) unit :=
  fun s => (Returned tt, Store (world s) (calls s) g).

Definition user (c : content) : message := Message "user" c.
Definition system (c : content) : message := Message "system" c.

End Groq.
Import Groq.

(** ** JSON values, as [json.loads] builds them *)

Module Json.

(** A Python [dict] keeps its keys in insertion order: an association
    list without repeated keys. *)
Inductive json : Type :=
| JNone
| JBool (b : bool)
| JInt (z : Z)
| JFloat (literal : string)
| JStr (s : string)
| JList (items : list json)
| JDict (items : list (string * json)).

Definition dict : Type := list (string * json).

Fixpoint dict_get (k : string) (d : dict) : option json :=
  match d with
  | [] => None
  | (k', v) :: rest => if String.eqb k k' then Some v else dict_get k rest
  end.

(** [d[k] = v]: an existing key keeps its place, a new key goes last. *)
Fixpoint dict_set (k : string) (v : json) (d : dict) : dict :=
  match d with
  | [] => [(k, v)]
  | (k', v') :: rest =>
      if String.eqb k k' then (k', v) :: rest else (k', v') :: dict_set k v rest
  end.

(** [v.get(k)] when [v] is a dict. *)
Definition field (k : string) (v : json) : option json :=
  match v with
  | JDict d => dict_get k d
  | _ => None
  end.

(** [obj[key] = v] on an arbitrary JSON value: only a dict takes a string
    key; a list, a number, a string, a boolean or [None] raises
    [TypeError]. *)
Definition setitem (obj : json) (key : string) (v : json) : Outcome json :=
  match obj with
  | JDict d => Returned (JDict (dict_set key v d))
  | _ => Raised (Exception "TypeError" "object does not support item assignment")
  end.

(** The parser of the standard library: a value, or [JSONDecodeError]. *)
Class Loader : Type := { loads : string -> Outcome json }.

End Json.
Import Json.

(** A reader for the JSON texts used in the worked examples below: objects,
    arrays, strings with the one-letter escapes, integers and decimal
    numbers, [true], [false] and [null].  It is one instance of [Loader];
    every general statement is made for an arbitrary [Loader]. *)

Module JsonReader.

Definition backslash : ascii := ascii_of_nat 92.

Definition is_ws (c : ascii) : bool :=
  let n := N_of_ascii c in
  ((n =? 32) || (n =? 9) || (n =? 10) || (n =? 13))%N.

Definition is_digit (c : ascii) : bool :=
  let n := N_of_ascii c in ((48 <=? n) && (n <=? 57))%N.

Fixpoint skip_ws (s : string) : string :=
  match s with
  | String c r => if is_ws c then skip_ws r else s
  | EmptyString => s
  end.

Fixpoint take_digits (s : string) : string * string :=
  match s with
  | String c r =>
      if is_digit c then let (ds, r') := take_digits r in (String c ds, r')
      else (EmptyString, s)
  | EmptyString => (EmptyString, s)
  end.

Fixpoint Z_of_digits (acc : Z) (ds : string) : Z :=
  match ds with
  | EmptyString => acc
  | String c r => Z_of_digits (acc * 10 + (Z.of_N (N_of_ascii c) - 48)) r
  end.

Definition unescape (e : ascii) : option ascii :=
  let n := N_of_ascii e in
  if (n =? 34)%N then Some dquote
  else if (n =? 92)%N then Some backslash
  else if (n =? 47)%N then Some "/"%char
  else if (n =? 98)%N then Some (ascii_of_nat 8)
  else if (n =? 102)%N then Some (ascii_of_nat 12)
  else if (n =? 110)%N then Some (ascii_of_nat 10)
  else if (n =? 114)%N then Some (ascii_of_nat 13)
  else if (n =? 116)%N then Some (ascii_of_nat 9)
  else None.

(** The text after an opening quote, up to the closing one. *)
Fixpoint read_string (s acc : string) : option (string * string) :=
  match s with
  | EmptyString => None
  | String c r =>
      if Ascii.eqb c dquote then Some (acc, r)
      else if Ascii.eqb c backslash then
        match r with
        | String e r' =>
            match unescape e with
            | Some c' => read_string r' (acc ++ String c' EmptyString)
            | None => None
            end
        | EmptyString => None
        end
      else if (N_of_ascii c <? 32)%N then None
      else read_string r (acc ++ String c EmptyString)
  end.

(** A number: an optional minus sign, an integer part without leading
    zeros, then an optional fraction and an optional exponent. *)
Definition read_fraction (s : string) : string * string :=
  match s with
  | String c r =>
      if Ascii.eqb c "."%char then
        match take_digits r with
        | (EmptyString, _) => (EmptyString, s)
        | (ds, r') => (String c ds, r')
        end
      else (EmptyString, s)
  | EmptyString => (EmptyString, s)
  end.

Definition read_exponent (s : string) : string * string :=
  match s with
  | String c r =>
      if Ascii.eqb c "e"%char || Ascii.eqb c "E"%char then
        let (sign, r1) :=
          match r with
          | String g r' =>
              if Ascii.eqb g "+"%char || Ascii.eqb g "-"%char
              then (String g EmptyString, r') else (EmptyString, r)
          | EmptyString => (EmptyString, r)
          end in
        match take_digits r1 with
        | (EmptyString, _) => (EmptyString, s)
        | (ds, r') => (String c (sign ++ ds), r')
        end
      else (EmptyString, s)
  | EmptyString => (EmptyString, s)
  end.

Definition read_number (s : string) : option (json * string) :=
  let (neg, s1) :=
    match s with
    | String c r => if Ascii.eqb c "-"%char then (true, r) else (false, s)
    | EmptyString => (false, s)
    end in
  let (ds, r) :=
    match s1 with
    | String c r0 =>
        if Ascii.eqb c "0"%char then (String c EmptyString, r0) else take_digits s1
    | EmptyString => (EmptyString, s1)
    end in
  match ds with
  | EmptyString => None
  | _ =>
      let (frac, r1) := read_fraction r in
      let (ex, r2) := read_exponent r1 in
      match frac, ex with
      | EmptyString, EmptyString =>
          let z := Z_of_digits 0 ds in
          Some (JInt (if neg then (- z)%Z else z), r2)
      | _, _ =>
          Some (JFloat ((if neg then "-" else EmptyString) ++ ds ++ frac ++ ex), r2)
      end
  end.

Fixpoint read_value (fuel : nat) (s : string) : option (json * string) :=
  match fuel with
  | O => None
  | S fuel' =>
      match skip_ws s with
      | EmptyString => None
      | String c r =>
          if Ascii.eqb c "{"%char then
            match skip_ws r with
            | String c' r' =>
                if Ascii.eqb c' "}"%char then Some (JDict [], r')
                else read_members fuel' r []
            | EmptyString => None
            end
          else if Ascii.eqb c "["%char then
            match skip_ws r with
            | String c' r' =>
                if Ascii.eqb c' "]"%char then Some (JList [], r')
                else read_elements fuel' r []
            | EmptyString => None
            end
          else if Ascii.eqb c dquote then
            match read_string r EmptyString with
            | Some (str, r') => Some (JStr str, r')
            | None => None
            end
          else
            match strip_prefix "true" (String c r),
                  strip_prefix "false" (String c r),
                  strip_prefix "null" (String c r) with
            | Some r', _, _ => Some (JBool true, r')
            | _, Some r', _ => Some (JBool false, r')
            | _, _, Some r' => Some (JNone, r')
            | _, _, _ => read_number (String c r)
            end
      end
  end
with read_members (fuel : nat) (s : string) (acc : dict) : option (json * string) :=
  match fuel with
  | O => None
  | S fuel' =>
      match skip_ws s with
      | String c r =>
          if Ascii.eqb c dquote then
            match read_string r EmptyString with
            | Some (k, r1) =>
                match skip_ws r1 with
                | String c1 r2 =>
                    if Ascii.eqb c1 ":"%char then
                      match read_value fuel' r2 with
                      | Some (v, r3) =>
                          match skip_ws r3 with
                          | String c3 r4 =>
                              if Ascii.eqb c3 ","%char
                              then read_members fuel' r4 (dict_set k v acc)
                              else if Ascii.eqb c3 "}"%char
                              then Some (JDict (dict_set k v acc), r4)
                              else None
                          | EmptyString => None
                          end
                      | None => None
                      end
                    else None
                | EmptyString => None
                end
            | None => None
            end
          else None
      | EmptyString => None
      end
  end
with read_elements (fuel : nat) (s : string) (acc : list json) : option (json * string) :=
  match fuel with
  | O => None
  | S fuel' =>
      match read_value fuel' s with
      | Some (v, r1) =>
          match skip_ws r1 with
          | String c r2 =>
              if Ascii.eqb c ","%char then read_elements fuel' r2 (acc ++ [v])
              else if Ascii.eqb c "]"%char then Some (JList (acc ++ [v]), r2)
              else None
          | EmptyString => None
          end
      | None => None
      end
  end.

Definition JSONDecodeError : exn :=
  Exception "JSONDecodeError" "Expecting value".

Definition json_loads (s : string) : Outcome json :=
  match read_value (S (String.length s)) s with
  | Some (v, rest) =>
      match skip_ws rest with
      | EmptyString => Returned v
      | _ => Raised JSONDecodeError
      end
  | None => Raised JSONDecodeError
  end.

Definition reader : Loader := {| loads := json_loads |}.

End JsonReader.

(** ** Notebook: llama-3.2-image-classification *)

Module ImageClassification.

(** The local file system, which the notebook only reads:
    [os.listdir(folder)] and [open(path, "rb").read()]. *)
Class FileSystem : Type := {
  listdir : string -> Outcome (list string);
  read_bytes : string -> Outcome (list byte)
}.

Definition model : string := "llama-3.2-11b-vision-preview".
Definition image_folder : string := "images/".

(** The prompt of the batch cell, with the schema it declares. *)
Definition user_prompt : string :=
  let q := String dquote EmptyString in
  String.concat newline
    ([EmptyString;
     "Your job is to extract structured data from an image of dogs and output the structured data in JSON.";
     "The JSON schema should strictly be the following:";
     "  {";
     "    " ++ q ++ "dog_breed" ++ q ++ ": " ++ q ++ "string (e.g., 'Golden Retriever', 'German Shepherd', 'Mixed')" ++ q ++ ",";
     "    " ++ q ++ "dog_color" ++ q ++ ": " ++ q ++ "string (categorical: 'Black', 'White', 'Brown', 'Golden', 'Multiple')" ++ q ++ ",";
     "    " ++ q ++ "number_of_dogs" ++ q ++ ": " ++ q ++ "integer (number of dogs in the image)" ++ q ++ ",";
     "    " ++ q ++ "puppies_present" ++ q ++ ": " ++ q ++ "boolean (TRUE if there are puppies in the image)" ++ q ++ ",";
     "    " ++ q ++ "dog_size" ++ q ++ ": " ++ q ++ "string (categorical: 'Toy', 'Small', 'Medium', 'Large')" ++ q ++ ",";
     "    " ++ q ++ "is_pet" ++ q ++ ": " ++ q ++ "boolean (True if the dog is a pet, False if it might be a wild animal like a wolf or coyote)" ++ q ++ ",";
     "    " ++ q ++ "dog_activity" ++ q ++ ": " ++ q ++ "string (categorical: 'Sitting', 'Standing', 'Running', 'Playing', 'Sleeping')" ++ q ++ ",";
     "    " ++ q ++ "background_environment" ++ q ++ ": " ++ q ++ "string (categorical: 'Indoors', 'Outdoors', 'Park', 'Beach', 'Forest')" ++ q ++ ",";
     "    " ++ q ++ "dog_accessories" ++ q ++ ": " ++ q ++ "string (accessories or items the dog is wearing or carrying, e.g., 'Collar', 'Leash', 'Bandana', 'Toy', 'Stick', 'Ball', 'None')" ++ q;
     "  } ";
     "  ";
     "Use the information from the following dog photo to construct the proper JSON output.";
     EmptyString])%string.

(** The field names that prompt asks the model for. *)
Definition declared_fields : list string :=
  ["dog_breed"; "dog_color"; "number_of_dogs"; "puppies_present";
   "dog_size"; "is_pet"; "dog_activity"; "background_environment";
   "dog_accessories"].

Section Notebook.
Context {W : Type} `{Client W} `{FileSystem} `{Loader}.

(** The one global the batch cell mutates is [image_json_list]. *)
Definition notebook : Type := store W (list json).

Definition encode_image (image_path : string) : M notebook string :=
  (image_file <- lift (read_bytes image_path) ;;
   ret (Base64.b64encode image_file))%py.

Definition classification_request (base64_image user_prompt : string)
  : request :=
  {| api_key := None;
     messages :=
       [user (parts_content
                [image_url_part (Base64.data_uri base64_image);
                 text_part user_prompt])];
     Groq.model := model;
     response_format := Some "json_object" |}.

Definition image_classification (base64_image user_prompt : string)
  : M notebook json :=
  (reply <- chat_completions_create
              (classification_request base64_image user_prompt) ;;
   lift (loads reply))%py.

(** The body of [for image_file in sorted(image_files)]. *)
Definition classify_one (user_prompt image_file : string) : M notebook unit :=
  (let image_path := (image_folder ++ image_file)%string in
   base64_image <- encode_image image_path ;;
   image_json <- image_classification base64_image user_prompt ;;
   image_json <- lift (setitem image_json "image_file" (JStr image_file)) ;;
   image_json_list <- get_globals ;;
   set_globals (image_json_list ++ [image_json]))%py.

Definition is_png (f : string) : bool := endswith f ".png".

Definition batch_cell (user_prompt : string) : M notebook unit :=
  (names <- lift (listdir image_folder) ;;
   let image_files := filter is_png names in
   set_globals [] ;;;
   for_each (sorted image_files) (classify_one user_prompt))%py.

(** The files, round trips and records of a batch that went through,
    file by file: the bytes were read, the reply parsed to a dict, and
    the record is that dict with the file name set. *)
Inductive extraction (user_prompt : string)
  : list string -> list exchange -> list json -> Prop :=
| extraction_nil : extraction user_prompt [] [] []
| extraction_cons image_file raw reply d files exchanges records :
    read_bytes (image_folder ++ image_file) = Returned raw ->
    loads reply = Returned (JDict d) ->
    extraction user_prompt files exchanges records ->
    extraction user_prompt (image_file :: files)
      (Exchange (classification_request (Base64.b64encode raw) user_prompt)
                (Returned reply) :: exchanges)
      (JDict (dict_set "image_file" (JStr image_file) d) :: records).

End Notebook.

End ImageClassification.

(** ** Notebook: Llama-Guard-4-Ensuring-Safe-Chatbot *)

Module LlamaGuard.

(** The text around [{unsafe_categories}] in [generate_harmful_message]. *)
Definition harmful_prompt_head : string :=
  newline
  ++ "    Below is the MLCommons taxonomy of 13 hazards, as well as an additional category for Code Interpreter Abuse for tool calls use cases."
  ++ newline
  ++ "    Provide a plausible user prompt to an AI chatbot that violates one of these unsafe categories. "
  ++ newline
  ++ "    Return ONLY the user message with nothing before or after. Do not describe the message or the category that it violates."
  ++ newline ++ "    " ++ newline
  ++ "    Unsafe categories:" ++ newline ++ "    ".
Definition harmful_prompt_tail : string := newline ++ "    ".

Definition safe_prompt : string :=
  "Return a plausible, short user prompt for an AI chatbot. Return only the prompt with nothing before or after.".

Definition community_guidelines_message : string :=
  "Your message contains content that violates our community guidelines. Please ensure your comments are respectful and safe for all users. Thank you!".

Definition chat_model : string := "llama-3.1-8b-instant".
Definition guard_model : string := "meta-llama/Llama-Guard-4-12B".

(** The category codes [S1] to [S14]. *)
Definition categories : list string :=
  map (fun i => ("S" ++ str_of_nat i)%string) (seq 1 14).

(** The classification results of the data model, stated from its
    words: the text [safe], or [unsafe], a newline and one or more
    category codes separated by commas or newlines. *)
Definition is_classification (text : string) : bool :=
  String.eqb text "safe"
  || match strip_prefix ("unsafe" ++ newline) text with
     | Some codes =>
         forallb (fun code => existsb (String.eqb code) categories)
                 (split_on (fun c => Ascii.eqb c ","%char
                                     || Ascii.eqb c (ascii_of_nat 10))
                           codes EmptyString)
     | None => false
     end.

(** A call with the text as the sole user message. *)
Definition text_request (model_id user_message : string) : request :=
  {| api_key := None;
     messages := [user (text_content user_message)];
     model := model_id;
     response_format := None |}.

(** The request that produces the user message of the filtering cell. *)
Definition generation_request (unsafe_categories : string) (random_number : Q)
  : request :=
  if negb (Qle_bool (1 # 2)%Q random_number)
  then text_request chat_model
         (harmful_prompt_head ++ unsafe_categories ++ harmful_prompt_tail)
  else text_request chat_model safe_prompt.

Section Notebook.
Context {W : Type} `{Client W}.

(** The global that matters here is the standard output: one entry per
    [print] call. *)
Definition notebook : Type := store W (list string).

(** [print(a, b, ...)]: the arguments joined by one space. *)
Definition print (args : list string) : M notebook unit :=
  (out <- get_globals ;; set_globals (out ++ [String.concat " " args]))%py.

Definition generate_harmful_message (unsafe_categories : string)
  : M notebook string :=
  chat_completions_create
    (text_request chat_model
       (harmful_prompt_head ++ unsafe_categories ++ harmful_prompt_tail)).

Definition generate_safe_message : M notebook string :=
  chat_completions_create (text_request chat_model safe_prompt).

Definition get_llamaguard_response (user_message : string)
  : M notebook string :=
  chat_completions_create (text_request guard_model user_message).

(** The cell under "Filtering harmful comments"; [random_number] is the
    value of [random.random()]. *)
Definition filtering_cell (unsafe_categories : string) (random_number : Q)
  : M notebook unit :=
  (user_message <-
     (if negb (Qle_bool (1 # 2)%Q random_number)
      then generate_harmful_message unsafe_categories
      else generate_safe_message) ;;
   llamaguard_response <- get_llamaguard_response user_message ;;
   print ["User Message:"; user_message] ;;;
   print ["Llama Guard 4 Response:"; llamaguard_response] ;;;
   if String.eqb llamaguard_response "safe" then
     reply <- chat_completions_create (text_request chat_model user_message) ;;
     print ["LLM Response"; prefix_slice 200 reply; "..."]
   else
     print [community_guidelines_message])%py.

(** The body of the loop that tries Llama Guard on ten generated
    messages. *)
Definition screen_one (unsafe_categories : string) (random_number : Q)
  : M notebook unit :=
  (user_message <-
     (if negb (Qle_bool (1 # 2)%Q random_number)
      then generate_harmful_message unsafe_categories
      else generate_safe_message) ;;
   llamaguard_response <- get_llamaguard_response user_message ;;
   print ["User Message:"; user_message] ;;;
   print ["Llama Guard 4 Response:"; llamaguard_response] ;;;
   print [newline])%py.

(** [for i in range(10): ...]; [random i] is the value [random.random()]
    returns in pass [i]. *)
Definition screening_cell (unsafe_categories : string) (random : nat -> Q)
  : M notebook unit :=
  for_each (seq 0 10) (fun i => screen_one unsafe_categories (random i)).

(** What one pass adds to the log and to the output, for a generated
    message and its verdict. *)
Definition pass_calls (unsafe_categories : string) (random_number : Q)
           (pass : string * string) : list exchange :=
  [Exchange (generation_request unsafe_categories random_number)
            (Returned (fst pass));
   Exchange (text_request guard_model (fst pass)) (Returned (snd pass))].

Definition pass_output (pass : string * string) : list string :=
  [("User Message: " ++ fst pass)%string;
   ("Llama Guard 4 Response: " ++ snd pass)%string;
   newline].

End Notebook.

End LlamaGuard.

(** ** Notebook: image_moderation (the Gradio app) *)

Module ImageModeration.

(** The imaging library: [image.save(buffer, format="JPEG")] followed by
    [buffer.getvalue()], which raises for an image JPEG cannot hold, and
    [Image.open(io.BytesIO(data))]. *)
Class Imaging : Type := {
  Image : Type;
  save_jpeg : Image -> Outcome (list byte);
  Image_open : list byte -> Outcome Image
}.

(** [requests.get(url).content] *)
Class Http (W : Type) : Type :=
  { requests_get : string -> W -> Outcome (list byte) * W }.

Definition vision_model : string := "llava-v1.5-7b-4096-preview".
Definition safety_model : string := "llama-guard-3-8b".

Definition safety_system_prompt : string :=
  "You are a content safety classifier. Analyze the given text and determine if it contains any unsafe or inappropriate content.".
Definition safety_user_prefix : string :=
  "Please analyze this image description for any unsafe or inappropriate content: ".

Definition invalid_url_message : string :=
  "Invalid image URL. Please provide a direct link to an image.".
Definition no_image_message : string :=
  "Please provide an image to analyze.".

Section Notebook.
Context {W : Type} `{Client W} `{Http W} `{Imaging}.

Definition notebook : Type := store W unit.

(** The first argument of [analyze_image]: a PIL image, or a URL when
    the call passes [is_url=True]. *)
Inductive image_arg : Type :=
| pil (image : Image)
| link (url : string).

Definition encode_image (image : Image) : M notebook string :=
  (buffered <- lift (save_jpeg image) ;;
   ret (Base64.b64encode buffered))%py.

(** The [image_content] entry of the message: the URL as it is, or the
    data URI of the encoded image. *)
Definition image_content (image : image_arg) : M notebook part :=
  match image with
  | link url => ret (image_url_part url)
  | pil img =>
      (base64_image <- encode_image img ;;
       ret (image_url_part (Base64.data_uri base64_image)))%py
  end.

(** The same entry as a value: what [image_content] returns or raises. *)
Definition part_of (image : image_arg) : Outcome part :=
  match image with
  | link url => Returned (image_url_part url)
  | pil img =>
      match save_jpeg img with
      | Returned buffered =>
          Returned (image_url_part (Base64.data_uri (Base64.b64encode buffered)))
      | Raised e => Raised e
      end
  end.

Definition analysis_request (image_content : part) (prompt api_key : string)
  : request :=
  {| Groq.api_key := Some api_key;
     messages := [user (parts_content [text_part prompt; image_content])];
     model := vision_model;
     response_format := None |}.

(** What [try: return reply / except Exception as e: return f"Error: {str(e)}"]
    makes of the outcome of the call. *)
Definition text_of (o : Outcome string) : string :=
  match o with
  | Returned reply => reply
  | Raised e => "Error: " ++ exn_str e
  end.

Definition analyze_image (image : image_arg) (prompt api_key : string)
  : M notebook string :=
  (content <- image_content image ;;
   try_except (chat_completions_create (analysis_request content prompt api_key))
              (fun e => ret ("Error: " ++ exn_str e)%string))%py.

Definition safety_request (image_description api_key : string) : request :=
  {| Groq.api_key := Some api_key;
     messages :=
       [system (text_content safety_system_prompt);
        user (text_content (safety_user_prefix ++ image_description))];
     model := safety_model;
     response_format := None |}.

Definition check_content_safety (image_description api_key : string)
  : M notebook string :=
  try_except (chat_completions_create (safety_request image_description api_key))
             (fun e => ret ("Error: " ++ exn_str e)%string).

Definition http_get (url : string) : M notebook (list byte) :=
  fun s =>
    let (o, w') := requests_get url (world s) in
    (o, Store w' (calls s) (globals s)).

(** Truth value of the [url] argument: [None] and the empty string are
    false. *)
Definition truthy (url : option string) : bool :=
  match url with
  | Some (String _ _) => true
  | _ => false
  end.

Definition url_text (url : option string) : string :=
  match url with Some u => u | None => EmptyString end.

(** [return analyze_image(...), check_content_safety(analyze_image(...), api_key)]:
    the tuple is built left to right. *)
Definition analyze_and_check (image : image_arg) (prompt api_key : string)
  : M notebook (string * string) :=
  (shown <- analyze_image image prompt api_key ;;
   description <- analyze_image image prompt api_key ;;
   verdict <- check_content_safety description api_key ;;
   ret (shown, verdict))%py.

Definition process_image (image : option Image) (url : option string)
           (prompt api_key : string) : M notebook (string * string) :=
  match image with
  | Some img => analyze_and_check (pil img) prompt api_key
  | None =>
      if truthy url then
        try_except
          (response <- http_get (url_text url) ;;
           _ <- lift (Image_open response) ;;
           analyze_and_check (link (url_text url)) prompt api_key)%py
          (fun _ => ret (invalid_url_message, EmptyString))
      else ret (no_image_message, EmptyString)
  end.

End Notebook.

End ImageModeration.

(** ** Notebook: Mixture of Agents (LangChain LCEL pipeline) *)

Module MixtureOfAgents.

(** A prompt with one placeholder: the text before it and after it. *)
Record template : Type := Template { before : string; after : string }.

Definition format (t : template) (value : string) : string :=
  before t ++ value ++ after t.

(** Messages of the conversation buffer. *)
Inductive chat_message : Type :=
| HumanMessage (text : string)
| AIMessage (text : string).

(** The dictionary handed to a chain. *)
Record llm_input : Type := LlmInput {
  input : string;
  history : list chat_message;      (* key ['messages'] *)
  helper_response : string
}.

(** What [create_agent] builds: the system prompt with its
    [{helper_response}] placeholder and the model behind it. *)
Record agent : Type := Agent {
  system_prompt : template;
  model_name : string;
  temperature : option Q
}.

Definition create_agent (system_prompt : template) (model_name : string)
           (temperature : option Q) : agent :=
  Agent system_prompt model_name temperature.

Definition to_message (m : chat_message) : message :=
  match m with
  | HumanMessage t => Message "user" (text_content t)
  | AIMessage t => Message "assistant" (text_content t)
  end.

(** [ChatPromptTemplate.from_messages([("system", system_prompt),
    MessagesPlaceholder("messages"), ("human", "{input}")])], formatted. *)
Definition format_prompt (a : agent) (inp : llm_input) : list message :=
  system (text_content (format (system_prompt a) (helper_response inp)))
  :: map to_message (history inp)
  ++ [user (text_content (input inp))].

(** The chat model: a full reply, or a stream of chunks that may break
    off with an exception. *)
Class ChatGroq (W : Type) : Type := {
  llm_invoke : string -> option Q -> list message -> W -> Outcome string * W;
  llm_stream : string -> option Q -> list message -> W
               -> (list string * option exn) * W
}.

Inductive event : Type :=
| Invoked (a : agent) (inp : llm_input) (out : Outcome string)
| Streamed (a : agent) (inp : llm_input) (chunks : list string)
           (failure : option exn).

Record notebook (W : Type) : Type := Notebook {
  world : W;
  trace : list event;
  CHAT_MEMORY : list chat_message
}.
Arguments Notebook {W} _ _ _.
Arguments world {W} _.
Arguments trace {W} _.
Arguments CHAT_MEMORY {W} _.

Definition REFERENCE_SYSTEM_PROMPT : template :=
  {| before :=
       "You have been provided with a set of responses from various open-source models to the latest user query. "
       ++ newline
       ++ "Your task is to synthesize these responses into a single, high-quality response. "
       ++ newline
       ++ "It is crucial to critically evaluate the information provided in these responses, recognizing that some of it may be biased or incorrect. "
       ++ newline
       ++ "Your response should not simply replicate the given answers but should offer a refined, accurate, and comprehensive reply to the instruction. "
       ++ newline
       ++ "Ensure your response is well-structured, coherent, and adheres to the highest standards of accuracy and reliability."
       ++ newline ++ "Responses from models:" ++ newline;
     after := newline |}.

(** [responses += f"{i}. {out}\n"] over [enumerate(inputs.values())],
    counting from [i]. *)
Fixpoint numbered (i : nat) (outs : list string) : string :=
  match outs with
  | [] => EmptyString
  | out :: rest =>
      str_of_nat i ++ ". " ++ out ++ newline ++ numbered (S i) rest
  end.

Definition concat_response (inputs : list (string * string)) : string :=
  format REFERENCE_SYSTEM_PROMPT (numbered 0 (map snd inputs)).

Definition CYCLES : nat := 3.

Definition LAYER_AGENT : list (string * agent) :=
  [("layer_agent_1",
    create_agent
      (Template "You are an expert planner agent. Break down and plan out how you can answer the user's question " EmptyString)
      "llama-3.3-70b-versatile" None);
   ("layer_agent_2",
    create_agent
      (Template "Respond with a thought and then your response to the question. " EmptyString)
      "meta-llama/llama-4-scout-17b-16e-instruct" None);
   ("layer_agent_3",
    create_agent
      (Template "Think through your response step by step. " EmptyString)
      "gemma2-9b-it" None)].

Definition MAIN_AGENT : agent :=
  create_agent
    (Template ("You are a helpful assistant named Bob." ++ newline) EmptyString)
    "llama3-70b-8192" (Some (1 # 10)%Q).

(** Reading the trace. *)
Definition event_input (ev : event) : llm_input :=
  match ev with
  | Invoked _ inp _ => inp
  | Streamed _ inp _ _ => inp
  end.

Definition is_invocation_of (a : agent) (ev : event) : bool :=
  match ev with
  | Invoked b _ _ => String.eqb (model_name b) (model_name a)
  | Streamed _ _ _ _ => false
  end.

Definition is_stream_of (a : agent) (ev : event) : bool :=
  match ev with
  | Invoked _ _ _ => false
  | Streamed b _ _ _ => String.eqb (model_name b) (model_name a)
  end.

(** How often an agent was invoked, or streamed from, in a trace. *)
Definition invocations (a : agent) (evs : list event) : nat :=
  List.length (filter (is_invocation_of a) evs).
Definition streamings (a : agent) (evs : list event) : nat :=
  List.length (filter (is_stream_of a) evs).

(** A call that came back with a reply. *)
Definition is_answered (ev : event) : bool :=
  match ev with
  | Invoked _ _ (Returned _) => true
  | _ => false
  end.

(** The events of a step that raised [e]: answered calls, then the call
    that raised. *)
Definition broke_at (e : exn) (added : list event) : Prop :=
  exists pre a inp,
    added = pre ++ [Invoked a inp (Raised e)]
    /\ Forall (fun ev => is_answered ev = true) pre.

(** The events of one pass through the layer with replies [outs]: every
    agent of the mapping invoked once, on the same input. *)
Definition round_events (layer : list (string * agent)) (inp : llm_input)
           (outs : list string) : list event :=
  map (fun step => Invoked (snd (fst step)) inp (Returned (snd step)))
      (combine layer outs).

(** The input of the next cycle. *)
Definition next_input (layer : list (string * agent)) (query : string)
           (memory : list chat_message) (outs : list string) : llm_input :=
  LlmInput query memory (concat_response (combine (map fst layer) outs)).

(** The events of successive cycles, given the replies of each, and the
    input the cycles end with. *)
Fixpoint cycles_events (layer : list (string * agent)) (query : string)
         (memory : list chat_message) (inp : llm_input)
         (rounds : list (list string)) : list event :=
  match rounds with
  | [] => []
  | outs :: rest =>
      round_events layer inp outs
      ++ cycles_events layer query memory
           (next_input layer query memory outs) rest
  end.

Fixpoint final_input (layer : list (string * agent)) (query : string)
         (memory : list chat_message) (inp : llm_input)
         (rounds : list (list string)) : llm_input :=
  match rounds with
  | [] => inp
  | outs :: rest =>
      final_input layer query memory (next_input layer query memory outs) rest
  end.

(** [response] after [response += chunk] for every chunk. *)
Definition joined (response : string) (chunks : list string) : string :=
  fold_left String.append chunks response.

Section Pipeline.
Context {W : Type} `{ChatGroq W}.

(** [chain.invoke(inp)] for [chain = prompt | llm | StrOutputParser()] *)
Definition agent_invoke (a : agent) (inp : llm_input) : M (notebook W) string :=
  fun s =>
    let (o, w') :=
      llm_invoke (model_name a) (temperature a) (format_prompt a inp) (world s) in
    (o, Notebook w' (trace s ++ [Invoked a inp o]) (CHAT_MEMORY s)).

(** [chain.stream(inp)]: the chunks the stream will deliver. *)
Definition agent_stream (a : agent) (inp : llm_input)
  : M (notebook W) (list string * option exn) :=
  fun s =>
    let (r, w') :=
      llm_stream (model_name a) (temperature a) (format_prompt a inp) (world s) in
    (Returned r,
     Notebook w' (trace s ++ [Streamed a inp (fst r) (snd r)]) (CHAT_MEMORY s)).

(** [CHAT_MEMORY.load_memory_variables({})['messages']] *)
Definition load_memory_variables : M (notebook W) (list chat_message) :=
  fun s => (Returned (CHAT_MEMORY s), s).

(** [CHAT_MEMORY.save_context({'input': q}, {'output': r})] *)
Definition save_context (q r : string) : M (notebook W) unit :=
  fun s =>
    (Returned tt,
     Notebook (world s) (trace s)
              (CHAT_MEMORY s ++ [HumanMessage q; AIMessage r])).

(** The dictionary of layer agents: every agent is invoked on the same
    input and the replies are collected under the agents' names, in
    the order of the mapping.  The library may run the agents side by
    side; here they are called one after the other in that order, and
    the first call that raises ends the step. *)
Fixpoint run_parallel (steps : list (string * agent)) (inp : llm_input)
  : M (notebook W) (list (string * string)) :=
  match steps with
  | [] => ret []
  | (name, a) :: rest =>
      (out <- agent_invoke a inp ;;
       outs <- run_parallel rest inp ;;
       ret ((name, out) :: outs))%py
  end.

(** [LAYER_AGENT.invoke(inp)]: the parallel step piped into
    [concat_response]. *)
Definition layer_invoke (layer : list (string * agent)) (inp : llm_input)
  : M (notebook W) string :=
  (outs <- run_parallel layer inp ;; ret (concat_response outs))%py.

(** [for _ in range(cycles): llm_inp = {...}] *)
Fixpoint cycle_loop (cycles : nat) (layer : list (string * agent))
         (query : string) (llm_inp : llm_input) : M (notebook W) llm_input :=
  match cycles with
  | O => ret llm_inp
  | S n =>
      (messages <- load_memory_variables ;;
       helper <- layer_invoke layer llm_inp ;;
       cycle_loop n layer query (LlmInput query messages helper))%py
  end.

(** The generator object [chat_stream(query)] returns: not started,
    suspended at [yield chunk] with the response so far and the chunks
    still to come, or finished.  [next] answers with a chunk and the
    generator to resume, or with [StopIteration], after which the
    generator is finished. *)
Inductive generator : Type :=
| Created (query : string)
| Suspended (query response chunk : string) (rest : list string)
            (failure : option exn)
| Exhausted.

Inductive resumption : Type :=
| Yield (chunk : string) (g : generator)
| StopIteration.

Definition chat_stream (query : string) : generator := Created query.

(** Take the next chunk of the main agent's stream, or finish the
    turn. *)
Definition advance (query response : string) (chunks : list string)
           (failure : option exn) : M (notebook W) resumption :=
  match chunks with
  | chunk :: rest => ret (Yield chunk (Suspended query response chunk rest failure))
  | [] =>
      match failure with
      | Some e => raise e
      | None => (save_context query response ;;; ret StopIteration)%py
      end
  end.

(** [next(g)] *)
Definition next (g : generator) : M (notebook W) resumption :=
  match g with
  | Created query =>
      (messages <- load_memory_variables ;;
       llm_inp <- cycle_loop CYCLES LAYER_AGENT query
                    (LlmInput query messages EmptyString) ;;
       r <- agent_stream MAIN_AGENT llm_inp ;;
       advance query EmptyString (fst r) (snd r))%py
  | Suspended query response chunk rest failure =>
      advance query (response ++ chunk) rest failure
  | Exhausted => ret StopIteration
  end.

(** [for chunk in g: ...], collecting the chunks. *)
Fixpoint iterate (fuel : nat) (g : generator) : M (notebook W) (list string) :=
  match fuel with
  | O => ret []
  | S fuel' =>
      (r <- next g ;;
       match r with
       | StopIteration => ret []
       | Yield chunk g' =>
           (chunks <- iterate fuel' g' ;; ret (chunk :: chunks))
       end)%py
  end.

(** Chunks a suspended generator has yet to deliver to [response]. *)
Definition pending (g : generator) : nat :=
  match g with
  | Suspended _ _ _ rest _ => S (List.length rest)
  | _ => O
  end.

(** The store once the conversation was saved, and once the main agent
    was asked for its stream. *)
Definition saved (s : notebook W) (q r : string) : notebook W :=
  Notebook (world s) (trace s) (CHAT_MEMORY s ++ [HumanMessage q; AIMessage r]).

Definition streamed (s : notebook W) (inp : llm_input)
           (r : list string * option exn) (w' : W) : notebook W :=
  Notebook w' (trace s ++ [Streamed MAIN_AGENT inp (fst r) (snd r)])
           (CHAT_MEMORY s).

(** From [s] to [s'] the memory stayed as it was, and every agent
    called in between was given the history [h]. *)
Definition extends (h : list chat_message) (s s' : notebook W) : Prop :=
  CHAT_MEMORY s' = CHAT_MEMORY s
  /\ exists added,
       trace s' = trace s ++ added
       /\ Forall (fun ev => history (event_input ev) = h) added.

(** The consumer has pulled the chunks [cs] out of generator [g], one
    [next] each, and holds it at [g']. *)
Inductive resumes
  : generator -> notebook W -> list string -> generator -> notebook W -> Prop :=
| resumes_nil g s : resumes g s [] g s
| resumes_cons g s c g1 s1 cs g2 s2 :
    next g s = (Returned (Yield c g1), s1) ->
    resumes g1 s1 cs g2 s2 ->
    resumes g s (c :: cs) g2 s2.

(** One user turn of the chat loop: [for chunk in chat_stream(inp)]. *)
Definition turn (query : string) : M (notebook W) (list string) :=
  (r <- next (chat_stream query) ;;
   match r with
   | StopIteration => ret []
   | Yield chunk g =>
       (chunks <- iterate (S (pending g)) g ;; ret (chunk :: chunks))
   end)%py.

(** The chat cell works at a terminal: the notebook and what was written
    to the standard output, one entry per write. *)
Record terminal : Type := Terminal {
  book : notebook W;
  stdout : list string
}.

Definition on_book {A} (m : M (notebook W) A) : M terminal A :=
  fun t => let (o, b) := m (book t) in (o, Terminal b (stdout t)).

Definition write (text : string) : M terminal unit :=
  fun t => (Returned tt, Terminal (book t) (stdout t ++ [text])).

(** [for chunk in stream: print(chunk, end="", flush=True)], from a
    suspended generator on. *)
Fixpoint print_stream (fuel : nat) (g : generator) : M terminal unit :=
  match fuel with
  | O => ret tt
  | S fuel' =>
      (r <- on_book (next g) ;;
       match r with
       | StopIteration => ret tt
       | Yield chunk g' => (write chunk ;;; print_stream fuel' g')
       end)%py
  end.

Definition print_chunks (g : generator) : M terminal unit :=
  (r <- on_book (next g) ;;
   match r with
   | StopIteration => ret tt
   | Yield chunk g' => (write chunk ;;; print_stream (S (pending g')) g')
   end)%py.

Definition EOFError : exn := Exception "EOFError" "EOF when reading a line".

(** [while True: inp = input(...) ...], over the lines still to be typed;
    the value is the lines left unread when the loop stops at [quit]. *)
Fixpoint chat_loop (lines : list string) : M terminal (list string) :=
  (write (newline ++ "Ask a question: ") ;;;
   match lines with
   | [] => raise EOFError
   | inp :: rest =>
       (write (newline ++ "User: " ++ inp ++ newline) ;;;
        if String.eqb (lower inp) "quit" then
          (write (newline ++ "Stopped by User" ++ newline ++ newline) ;;;
           ret rest)
        else
          (write "AI: " ;;;
           print_chunks (chat_stream inp) ;;;
           chat_loop rest))
   end)%py.

(** The messages a run of questions and answers leaves in the memory. *)
Fixpoint dialogue (questions answers : list string) : list chat_message :=
  match questions, answers with
  | q :: qs, a :: ans => HumanMessage q :: AIMessage a :: dialogue qs ans
  | _, _ => []
  end.

(** What the chat cell writes for a run of questions with the chunks of
    their answers, and for the line that stops it. *)
Fixpoint transcript (questions : list string) (replies : list (list string))
  : list string :=
  match questions, replies with
  | q :: qs, chunks :: rs =>
      [(newline ++ "Ask a question: ")%string;
       (newline ++ "User: " ++ q ++ newline)%string; "AI: "]
      ++ chunks ++ transcript qs rs
  | _, _ => []
  end.

Definition farewell (word : string) : list string :=
  [(newline ++ "Ask a question: ")%string;
   (newline ++ "User: " ++ word ++ newline)%string;
   (newline ++ "Stopped by User" ++ newline ++ newline)%string].

End Pipeline.

End MixtureOfAgents.

(** ** Scripted services, for running the notebooks on concrete inputs *)

Module Scenario.

(** A scripted endpoint: the world is the list of outcomes still to be
    served, one per call; once the script is used up a call fails. *)
Definition script : Type := list (Outcome string).

Definition connection_error : exn :=
  Exception "APIConnectionError" "Connection error.".

Definition scripted : Client script :=
  {| create := fun _ w =>
       match w with
       | o :: rest => (o, rest)
       | [] => (Raised connection_error, [])
       end |}.

(** A folder [images/] holding the given files. *)
Definition folder (files : list (string * list byte))
  : ImageClassification.FileSystem :=
  {| ImageClassification.listdir := fun d =>
       if String.eqb d ImageClassification.image_folder
       then Returned (map fst files)
       else Raised (Exception "FileNotFoundError" d);
     ImageClassification.read_bytes := fun path =>
       match find (fun f => String.eqb
                              (ImageClassification.image_folder ++ fst f) path)
                  files with
       | Some f => Returned (snd f)
       | None => Raised (Exception "FileNotFoundError" path)
       end |}.

(** A web on which only the given addresses answer. *)
Definition web (pages : list (string * list byte))
  : ImageModeration.Http script :=
  {| ImageModeration.requests_get := fun url w =>
       (match find (fun p => String.eqb (fst p) url) pages with
        | Some p => Returned (snd p)
        | None => Raised (Exception "ConnectionError" url)
        end, w) |}.

(** Images stand for their own JPEG bytes; no bytes, no image. *)
Definition pixels : ImageModeration.Imaging :=
  {| ImageModeration.Image := list byte;
     ImageModeration.save_jpeg := fun img => Returned img;
     ImageModeration.Image_open := fun data =>
       match data with
       | [] => Raised (Exception "UnidentifiedImageError"
                                 "cannot identify image file")
       | _ => Returned data
       end |}.

Definition breed_reply (breed : string) : string :=
  "{" ++ quoted "dog_breed" ++ ": " ++ quoted breed ++ "}".

Definition kennel : ImageClassification.FileSystem :=
  folder [("b.png", [x89; x50]); ("notes.txt", [x68; x69]);
          ("a.png", [x89; x50; x4e])].

Definition one_dog : ImageClassification.FileSystem :=
  folder [("a.png", [x89; x50; x4e])].

Definition fresh {W G} (w : W) (g : G) : store W G := Store w [] g.

Definition two_replies : script :=
  [Returned (breed_reply "Beagle"); Returned (breed_reply "Corgi")].

Definition cat_photo : list byte := [xff; xd8; xff; xe0].
Definition cat_url : string := "https://example.com/cat.jpg".
Definition one_page : ImageModeration.Http script := web [(cat_url, cat_photo)].

(** Three replies: two descriptions of the same picture that differ, and
    a verdict. *)
Definition two_descriptions : script :=
  [Returned "A cat on a sofa."; Returned "A tiger in tall grass.";
   Returned "safe"].

(** A reply of 201 characters. *)
Definition long_reply : string := repeat_string 201 "a".

Definition story_turn (verdict reply : string) : script :=
  [Returned "Tell me a story"; Returned verdict; Returned reply].

(** A scripted chat model: replies for [invoke] and chunk lists for
    [stream], served in order. *)
Record studio : Type := Studio {
  replies : list (Outcome string);
  streams : list (list string * option exn)
}.

Definition scripted_llm : MixtureOfAgents.ChatGroq studio :=
  {| MixtureOfAgents.llm_invoke := fun _ _ _ w =>
       match replies w with
       | o :: rest => (o, Studio rest (streams w))
       | [] => (Raised connection_error, w)
       end;
     MixtureOfAgents.llm_stream := fun _ _ _ w =>
       match streams w with
       | r :: rest => (r, Studio (replies w) rest)
       | [] => (([], Some connection_error), w)
       end |}.

(** Replies for three cycles of three agents, and a main-agent stream of
    two chunks. *)
Definition full_turn : studio :=
  {| replies := map Returned
                    ["plan A"; "thought A"; "steps A";
                     "plan B"; "thought B"; "steps B";
                     "plan C"; "thought C"; "steps C"];
     streams := [(["Hel"; "lo"], None)] |}.

Definition opening : MixtureOfAgents.notebook studio :=
  MixtureOfAgents.Notebook full_turn [] [].

(** A notebook whose second layer call fails, and one whose main-agent
    stream breaks off after a chunk. *)
Definition failing_layer : MixtureOfAgents.notebook studio :=
  MixtureOfAgents.Notebook (Studio [Returned "plan A"] []) [] [].

Definition breaking_stream : MixtureOfAgents.notebook studio :=
  MixtureOfAgents.Notebook
    (Studio (replies full_turn) [(["Hel"], Some connection_error)]) [] [].

(** Services that always answer; the world counts the calls. *)
Definition steady (reply : string) : Client nat :=
  {| create := fun _ w => (Returned reply, S w) |}.

Definition steady_llm : MixtureOfAgents.ChatGroq nat :=
  {| MixtureOfAgents.llm_invoke := fun m _ _ w =>
       (Returned ("a thought of " ++ m)%string, S w);
     MixtureOfAgents.llm_stream := fun _ _ _ w =>
       ((["Hel"; "lo"], None), S w) |}.

(** Images with or without an alpha channel; JPEG holds only the
    latter. *)
Definition layered : ImageModeration.Imaging :=
  {| ImageModeration.Image := list byte * bool;
     ImageModeration.save_jpeg := fun img =>
       if snd img
       then Raised (Exception "OSError" "cannot write mode RGBA as JPEG")
       else Returned (fst img);
     ImageModeration.Image_open := fun data => Returned (data, false) |}.

End Scenario.

(** * Properties *)

(** ** The monad and the list functions of the runtime *)

Module PyFacts.

Section Monad.
Context {S A B : Type}.

Lemma bind_returned (m : M S A) (k : A -> M S B) s a s' :
  m s = (Returned a, s') -> bind m k s = k a s'.
Proof. unfold bind. now intros ->. Qed.

Lemma bind_raised (m : M S A) (k : A -> M S B) s e s' :
  m s = (Raised e, s') -> bind m k s = (Raised e, s').
Proof. unfold bind. now intros ->. Qed.

Lemma bind_returned_inv (m : M S A) (k : A -> M S B) s b s'' :
  bind m k s = (Returned b, s'') ->
  exists a s', m s = (Returned a, s') /\ k a s' = (Returned b, s'').
Proof.
  unfold bind. destruct (m s) as [[a|e] s']; intros E.
  - now exists a, s'.
  - discriminate.
Qed.

Lemma bind_raised_inv (m : M S A) (k : A -> M S B) s e s'' :
  bind m k s = (Raised e, s'') ->
  m s = (Raised e, s'')
  \/ exists a s', m s = (Returned a, s') /\ k a s' = (Raised e, s'').
Proof.
  unfold bind. destruct (m s) as [[a|e'] s']; intros E.
  - right. now exists a, s'.
  - left. now injection E as -> ->.
Qed.
End Monad.

Lemma append_assoc (a b c : string) : ((a ++ b) ++ c = a ++ (b ++ c))%string.
Proof. induction a as [|x a IH]; cbn; [reflexivity|now rewrite IH]. Qed.

Lemma append_empty_r (a : string) : (a ++ EmptyString)%string = a.
Proof. induction a as [|x a IH]; cbn; [reflexivity|now rewrite IH]. Qed.

Lemma for_each_app {S A} (body : A -> M S unit) (xs ys : list A) s s1 :
  for_each xs body s = (Returned tt, s1) ->
  for_each (xs ++ ys) body s = for_each ys body s1.
Proof.
  revert s. induction xs as [|x xs IH]; intros s E; cbn in *.
  - now injection E as ->.
  - apply bind_returned_inv in E as (u & s0 & E0 & E1).
    rewrite (bind_returned _ _ _ _ _ E0). now apply IH.
Qed.

Lemma for_each_raises {S A} (body : A -> M S unit) x (rest : list A) s e s' :
  body x s = (Raised e, s') ->
  for_each (x :: rest) body s = (Raised e, s').
Proof. intros E. cbn. now apply bind_raised. Qed.

Lemma insert_sorted_perm x xs : Permutation (x :: xs) (insert_sorted x xs).
Proof.
  induction xs as [|y ys IH]; cbn; [reflexivity|].
  destruct (String.leb x y); [reflexivity|].
  rewrite perm_swap. now apply perm_skip.
Qed.

Lemma insert_sorted_ascending x xs : ascending xs -> ascending (insert_sorted x xs).
Proof.
  unfold ascending. induction 1 as [|y ys Hs IH Hd]; cbn.
  - repeat constructor.
  - destruct (String.leb x y) eqn:E.
    + repeat constructor; assumption.
    + constructor; [exact IH|].
      assert (Hyx : String.leb y x = true)
        by (destruct (String.leb_total x y); congruence).
      destruct ys as [|z zs]; cbn; [now constructor|].
      destruct (String.leb x z); constructor; [exact Hyx|].
      now inversion Hd.
Qed.

Lemma sorted_perm xs : Permutation xs (sorted xs).
Proof.
  induction xs as [|x xs IH]; cbn; [constructor|].
  etransitivity; [apply perm_skip, IH|apply insert_sorted_perm].
Qed.

Lemma sorted_ascending xs : ascending (sorted xs).
Proof.
  induction xs as [|x xs IH]; cbn; [constructor|].
  now apply insert_sorted_ascending.
Qed.

Lemma sorted_length xs : List.length (sorted xs) = List.length xs.
Proof. symmetry. apply Permutation_length, sorted_perm. Qed.

End PyFacts.

(** ** The endpoint *)

Module GroqFacts.

Lemma create_logged {W G} `{Client W} req (s : store W G) o w' :
  create req (world s) = (o, w') ->
  chat_completions_create req s = (o, logged s req o w').
Proof. unfold chat_completions_create, logged. now intros ->. Qed.

End GroqFacts.

(** ** Base64 *)

Module Base64Facts.
Import Base64.

Lemma sextets_ok :
  forallb (fun k => match a2b (b2a (N.of_nat k)) with
                    | Some j => (j =? N.of_nat k)%N
                    | None => false
                    end && negb (Ascii.eqb (b2a (N.of_nat k)) pad))
          (seq 0 64) = true.
Proof. vm_compute. reflexivity. Qed.

Lemma a2b_b2a (i : N) :
  (i < 64)%N -> a2b (b2a i) = Some i /\ Ascii.eqb (b2a i) pad = false.
Proof.
  intros Hi.
  pose proof (proj1 (forallb_forall _ _) sextets_ok (N.to_nat i)) as H.
  assert (Hin : In (N.to_nat i) (seq 0 64)) by (apply in_seq; lia).
  specialize (H Hin). cbv beta in H. rewrite N2Nat.id in H.
  apply andb_true_iff in H as [H1 H2].
  destruct (a2b (b2a i)) as [j|]; [|discriminate].
  apply N.eqb_eq in H1. subst j. split; [reflexivity|].
  now apply negb_true_iff in H2.
Qed.

Lemma byte_of_to_N (b : byte) : byte_of_N (Byte.to_N b) = b.
Proof.
  unfold byte_of_N. pose proof (Byte.to_N_bounded b) as Hb.
  rewrite N.mod_small by lia. now rewrite Byte.of_to_N.
Qed.

Ltac euclid := zify; Z.to_euclidean_division_equations; lia.

(** The four sextets of a group of three bytes, and the way back. *)
Lemma group3 (a b c : N) :
  (a < 256 -> b < 256 -> c < 256 ->
   a / 4 < 64 /\ (a mod 4) * 16 + b / 16 < 64 /\
   (b mod 16) * 4 + c / 64 < 64 /\ c mod 64 < 64 /\
   (a mod 4) * 16 < 64 /\ (b mod 16) * 4 < 64 /\
   (a / 4) * 4 + ((a mod 4) * 16 + b / 16) / 16 = a /\
   (((a mod 4) * 16 + b / 16) mod 16) * 16 + ((b mod 16) * 4 + c / 64) / 4 = b /\
   (((b mod 16) * 4 + c / 64) mod 4) * 64 + c mod 64 = c /\
   (a / 4) * 4 + ((a mod 4) * 16) / 16 = a /\
   (((a mod 4) * 16 + b / 16) mod 16) * 16 + ((b mod 16) * 4) / 4 = b)%N.
Proof. intros. repeat split; euclid. Qed.

Lemma list_ind3 {A} (P : list A -> Prop) :
  P [] -> (forall x, P [x]) -> (forall x y, P [x; y]) ->
  (forall x y z l, P l -> P (x :: y :: z :: l)) -> forall l, P l.
Proof.
  intros H0 H1 H2 H3.
  fix IH 1.
  intros [|x [|y [|z l]]]; [exact H0 | apply H1 | apply H2 | apply H3, IH].
Qed.

Lemma b64decode_b64encode (bs : list byte) :
  b64decode (b64encode bs) = Some bs.
Proof.
  induction bs as [|x|x y|x y z l IH] using list_ind3.
  - reflexivity.
  - cbn [b64encode b64decode].
    pose proof (Byte.to_N_bounded x) as Hx.
    destruct (group3 (Byte.to_N x) 0 0)
      as (A1 & _ & _ & _ & A5 & _ & _ & _ & _ & E1 & _); try lia.
    destruct (a2b_b2a _ A1) as [-> _]. destruct (a2b_b2a _ A5) as [-> _].
    rewrite E1, byte_of_to_N. reflexivity.
  - cbn [b64encode b64decode].
    pose proof (Byte.to_N_bounded x) as Hx.
    pose proof (Byte.to_N_bounded y) as Hy.
    destruct (group3 (Byte.to_N x) (Byte.to_N y) 0)
      as (A1 & A2 & _ & _ & _ & A6 & E1 & _ & _ & _ & E2); try lia.
    destruct (a2b_b2a _ A1) as [-> _]. destruct (a2b_b2a _ A2) as [-> _].
    destruct (a2b_b2a _ A6) as [-> ->].
    rewrite E1, E2, !byte_of_to_N. reflexivity.
  - cbn [b64encode b64decode].
    pose proof (Byte.to_N_bounded x) as Hx.
    pose proof (Byte.to_N_bounded y) as Hy.
    pose proof (Byte.to_N_bounded z) as Hz.
    destruct (group3 (Byte.to_N x) (Byte.to_N y) (Byte.to_N z))
      as (A1 & A2 & A3 & A4 & _ & _ & E1 & E2 & E3 & _); try lia.
    destruct (a2b_b2a _ A1) as [-> _]. destruct (a2b_b2a _ A2) as [-> _].
    destruct (a2b_b2a _ A3) as [-> ->]. destruct (a2b_b2a _ A4) as [-> ->].
    rewrite IH, E1, E2, E3, !byte_of_to_N. reflexivity.
Qed.

Lemma decode_data_uri_data_uri (payload : string) :
  decode_data_uri (data_uri payload) = b64decode payload.
Proof. reflexivity. Qed.

End Base64Facts.

(** ** The image-classification notebook *)

Module ClassificationFacts.
Import Base64 Base64Facts PyFacts GroqFacts ImageClassification.

Lemma dict_get_set_same k v d : dict_get k (dict_set k v d) = Some v.
Proof.
  induction d as [|[k' v'] d IH]; cbn.
  - now rewrite String.eqb_refl.
  - destruct (String.eqb k k') eqn:E; cbn; rewrite E; [reflexivity|exact IH].
Qed.

Lemma dict_get_set_other k k' v d :
  k' <> k -> dict_get k' (dict_set k v d) = dict_get k' d.
Proof.
  intros Hne. induction d as [|[k0 v0] d IH]; cbn.
  - now apply String.eqb_neq in Hne as ->.
  - destruct (String.eqb k k0) eqn:E; cbn.
    + apply String.eqb_eq in E as <-.
      now apply String.eqb_neq in Hne as ->.
    + now rewrite IH.
Qed.

Section Notebook.
Context {W : Type} `{Client W} `{FileSystem} `{Loader}.

Abbreviation notebook := (@notebook W).

Lemma encode_image_reads path raw (s : notebook) :
  read_bytes path = Returned raw ->
  encode_image path s = (Returned (b64encode raw), s).
Proof. unfold encode_image, bind, lift, ret. now intros ->. Qed.

Lemma image_classification_eq base64_image user_prompt (s : notebook) o w' :
  create (classification_request base64_image user_prompt) (world s) = (o, w') ->
  image_classification base64_image user_prompt s =
  (match o with Returned reply => loads reply | Raised e => Raised e end,
   logged s (classification_request base64_image user_prompt) o w').
Proof.
  intros E. unfold image_classification, bind.
  rewrite (create_logged _ _ _ _ E). now destruct o.
Qed.

(** One pass through the loop body, case by case. *)
Lemma classify_one_eq user_prompt image_file raw (s : notebook) o w' :
  read_bytes (image_folder ++ image_file) = Returned raw ->
  create (classification_request (b64encode raw) user_prompt) (world s) = (o, w') ->
  let s1 := logged s (classification_request (b64encode raw) user_prompt) o w' in
  classify_one user_prompt image_file s =
  match o with
  | Raised e => (Raised e, s1)
  | Returned reply =>
      match loads reply with
      | Raised e => (Raised e, s1)
      | Returned v =>
          match setitem v "image_file" (JStr image_file) with
          | Raised e => (Raised e, s1)
          | Returned record =>
              (Returned tt,
               Store (world s1) (calls s1) (globals s ++ [record]))
          end
      end
  end.
Proof.
  intros R E s1. unfold classify_one.
  rewrite (bind_returned _ _ _ _ _ (encode_image_reads _ _ _ R)).
  unfold bind at 1. rewrite (image_classification_eq _ _ _ _ _ E).
  fold s1. destruct o as [reply|e]; [|reflexivity].
  destruct (loads reply) as [v|e]; [|reflexivity].
  unfold bind, lift. destruct (setitem v _ _) as [record|e]; reflexivity.
Qed.

Lemma classify_one_unreadable user_prompt image_file e (s : notebook) :
  read_bytes (image_folder ++ image_file) = Raised e ->
  classify_one user_prompt image_file s = (Raised e, s).
Proof.
  intros R. unfold classify_one, encode_image, bind, lift. now rewrite R.
Qed.

Lemma classify_one_inv user_prompt image_file (s s' : notebook) :
  classify_one user_prompt image_file s = (Returned tt, s') ->
  exists raw reply d,
    read_bytes (image_folder ++ image_file) = Returned raw
    /\ loads reply = Returned (JDict d)
    /\ calls s' = calls s ++
         [Exchange (classification_request (b64encode raw) user_prompt)
                   (Returned reply)]
    /\ globals s' = globals s ++
         [JDict (dict_set "image_file" (JStr image_file) d)].
Proof.
  intros E.
  destruct (read_bytes (image_folder ++ image_file)) as [raw|e] eqn:R.
  2:{ rewrite (classify_one_unreadable _ _ _ _ R) in E. discriminate. }
  destruct (create (classification_request (b64encode raw) user_prompt)
                   (world s)) as [o w'] eqn:C.
  rewrite (classify_one_eq _ _ _ _ _ _ R C) in E.
  destruct o as [reply|e]; [|discriminate].
  destruct (loads reply) as [v|e] eqn:L; [|discriminate].
  destruct v; cbn in E; try discriminate.
  injection E as <-. exists raw, reply, items. repeat split; auto.
Qed.

Lemma for_each_classify user_prompt files (s s' : notebook) :
  for_each files (classify_one user_prompt) s = (Returned tt, s') ->
  exists exchanges records,
    calls s' = calls s ++ exchanges
    /\ globals s' = globals s ++ records
    /\ extraction user_prompt files exchanges records.
Proof.
  revert s. induction files as [|f files IH]; intros s E; cbn in E.
  - injection E as <-. exists [], []. rewrite !app_nil_r.
    repeat split; constructor.
  - apply bind_returned_inv in E as ([] & s1 & E1 & E2).
    apply classify_one_inv in E1 as (raw & reply & d & R & L & C1 & G1).
    apply IH in E2 as (exs & recs & C2 & G2 & X).
    eexists (_ :: exs), (_ :: recs). rewrite C2, G2, C1, G1, <- !app_assoc.
    repeat split. econstructor; eauto.
Qed.

Lemma extraction_length user_prompt files exchanges records :
  extraction user_prompt files exchanges records ->
  List.length exchanges = List.length files
  /\ List.length records = List.length files.
Proof. induction 1; cbn; [auto|]. destruct IHextraction. auto. Qed.

Lemma extraction_image_file user_prompt files exchanges records :
  extraction user_prompt files exchanges records ->
  Forall2 (fun f record => field "image_file" record = Some (JStr f))
          files records.
Proof.
  induction 1; constructor; auto. cbn. apply dict_get_set_same.
Qed.

Lemma extraction_fields user_prompt files exchanges records :
  extraction user_prompt files exchanges records ->
  Forall2 (fun ex record =>
             exists reply d,
               got ex = Returned reply /\ loads reply = Returned (JDict d)
               /\ forall k, k <> "image_file" -> field k record = dict_get k d)
          exchanges records.
Proof.
  induction 1; constructor; auto. exists reply, d. repeat split; auto.
  intros k Hk. cbn. now apply dict_get_set_other.
Qed.

(** C5. [image_classification] hands back whatever [json.loads] makes of
    the reply: the parsed value when the body is valid JSON, whatever
    its shape, and the parser's exception otherwise.  When that
    exception occurs for a file of the batch, the loop ends there with
    the exception: no later file is read or sent, no record is added. *)
Theorem image_classification_parses_only
        base64_image user_prompt (s : notebook) reply w' :
  create (classification_request base64_image user_prompt) (world s)
  = (Returned reply, w') ->
  let s1 := logged s (classification_request base64_image user_prompt)
                   (Returned reply) w' in
  image_classification base64_image user_prompt s = (loads reply, s1)
  /\ (forall e done image_file raw rest s0,
         loads reply = Raised e ->
         for_each done (classify_one user_prompt) s0 = (Returned tt, s) ->
         read_bytes (image_folder ++ image_file) = Returned raw ->
         base64_image = b64encode raw ->
         for_each (done ++ image_file :: rest) (classify_one user_prompt) s0
         = (Raised e, s1)).
Proof.
  intros C s1. split.
  - exact (image_classification_eq _ _ _ _ _ C).
  - intros e done image_file raw rest s0 L D R ->.
    rewrite (for_each_app _ _ _ _ _ D). apply for_each_raises.
    rewrite (classify_one_eq _ _ _ _ _ _ R C). cbv zeta. now rewrite L.
Qed.

(** The batch cell runs through when every file can be read and every
    reply parses to a dict. *)
Lemma batch_cell_completes user_prompt names (s : notebook) :
  listdir image_folder = Returned names ->
  (forall path, exists raw, read_bytes path = Returned raw) ->
  (forall req w, exists reply d,
      fst (create req w) = Returned reply /\ loads reply = Returned (JDict d)) ->
  exists s', batch_cell user_prompt s = (Returned tt, s').
Proof.
  intros L Readable Parses. unfold batch_cell, bind at 1, lift. rewrite L.
  cbn. generalize (Store (world s) (calls s) (@nil json)).
  induction (sorted (filter is_png names)) as [|f files IH]; intros s0; cbn.
  - now eexists.
  - destruct (Readable (image_folder ++ f)%string) as [raw R].
    destruct (create (classification_request (b64encode raw) user_prompt)
                     (world s0)) as [o w'] eqn:C.
    destruct (Parses (classification_request (b64encode raw) user_prompt)
                     (world s0)) as (reply & d & E & P).
    rewrite C in E. cbn in E. subst o.
    unfold bind at 1. rewrite (classify_one_eq _ _ _ _ _ _ R C). cbv zeta.
    rewrite P. cbn. apply IH.
Qed.

(** C3 (amended). When the batch cell runs through, the files it
    worked on are the [.png] names of the folder in ascending order,
    there is exactly one record per such file, in that order, the
    record's [image_file] is the file's name, and the record is
    otherwise the dict the model's reply parsed to. *)
Theorem batch_cell_records user_prompt names (s s' : notebook) :
  listdir image_folder = Returned names ->
  batch_cell user_prompt s = (Returned tt, s') ->
  let image_files := filter is_png names in
  let files := sorted image_files in
  ascending files
  /\ Permutation image_files files
  /\ List.length (globals s') = List.length image_files
  /\ Forall2 (fun f record => field "image_file" record = Some (JStr f))
             files (globals s')
  /\ exists exchanges,
       calls s' = calls s ++ exchanges
       /\ extraction user_prompt files exchanges (globals s')
       /\ Forall2 (fun ex record =>
                     exists reply d,
                       got ex = Returned reply
                       /\ loads reply = Returned (JDict d)
                       /\ forall k, k <> "image_file" ->
                                    field k record = dict_get k d)
                  exchanges (globals s').
Proof.
  intros L E image_files files.
  unfold batch_cell, bind, lift in E. rewrite L in E. cbn in E.
  apply for_each_classify in E as (exs & recs & C & G & X).
  cbn in C, G. rewrite G.
  destruct (extraction_length _ _ _ _ X) as [_ Hlen].
  repeat split.
  - apply sorted_ascending.
  - apply sorted_perm.
  - rewrite Hlen. apply sorted_length.
  - exact (extraction_image_file _ _ _ _ X).
  - exists exs. repeat split; auto. exact (extraction_fields _ _ _ _ X).
Qed.

End Notebook.

Section Encoding.
Context {W : Type} `{FileSystem} `{ImageModeration.Imaging}.

(** C8. Encoding the bytes of a local image file into a base64 data URI
    and decoding the payload gives the bytes back; the same holds for
    the JPEG bytes the moderation app encodes. *)
Theorem encode_image_roundtrip image_path raw (s : @notebook W)
        (image : ImageModeration.Image) buffered
        (t : @ImageModeration.notebook W) :
  read_bytes image_path = Returned raw ->
  ImageModeration.save_jpeg image = Returned buffered ->
  (exists base64_image,
      encode_image image_path s = (Returned base64_image, s)
      /\ decode_data_uri (data_uri base64_image) = Some raw)
  /\ (exists base64_image,
         ImageModeration.encode_image image t = (Returned base64_image, t)
         /\ decode_data_uri (data_uri base64_image) = Some buffered).
Proof.
  intros R J. split.
  - exists (b64encode raw). split; [now apply encode_image_reads|].
    rewrite decode_data_uri_data_uri. apply b64decode_b64encode.
  - exists (b64encode buffered). split.
    + unfold ImageModeration.encode_image, bind, lift. now rewrite J.
    + rewrite decode_data_uri_data_uri. apply b64decode_b64encode.
Qed.

End Encoding.

Import Scenario.

Lemma encode_image_roundtrip_witness :
  @read_bytes kennel "images/a.png" = Returned [x89; x50; x4e]
  /\ @ImageModeration.save_jpeg pixels cat_photo = Returned cat_photo
  /\ (exists base64_image,
         @encode_image script kennel "images/a.png" (fresh [] [])
         = (Returned base64_image, fresh [] [])
         /\ decode_data_uri (data_uri base64_image) = Some [x89; x50; x4e])
  /\ (exists base64_image,
         @ImageModeration.encode_image script pixels cat_photo (fresh [] tt)
         = (Returned base64_image, fresh [] tt)
         /\ decode_data_uri (data_uri base64_image) = Some cat_photo).
Proof.
  split; [reflexivity|]. split; [reflexivity|].
  apply (@encode_image_roundtrip script kennel pixels); reflexivity.
Defined.

(** A reply that is valid JSON but has none of the declared fields comes
    back as it is. *)
Example empty_object_is_accepted :
  @image_classification script scripted JsonReader.reader "iVBO" user_prompt
    (fresh [Returned "{}"] [])
  = (Returned (JDict []),
     logged (fresh [Returned "{}"] [])
            (classification_request "iVBO" user_prompt) (Returned "{}") []).
Proof. reflexivity. Qed.

Lemma image_classification_parses_only_witness :
  let s := fresh [Returned "woof"; Returned (breed_reply "Corgi")] [] in
  let s1 := logged s (classification_request "iVBO" user_prompt)
                   (Returned "woof") [Returned (breed_reply "Corgi")] in
  @create script scripted (classification_request "iVBO" user_prompt) (world s)
  = (Returned "woof", [Returned (breed_reply "Corgi")])
  /\ @image_classification script scripted JsonReader.reader "iVBO" user_prompt s
     = (Raised JsonReader.JSONDecodeError, s1)
  /\ for_each ["a.png"; "b.png"]
              (@classify_one script scripted kennel JsonReader.reader user_prompt) s
     = (Raised JsonReader.JSONDecodeError, s1).
Proof.
  intros s s1.
  pose proof (@image_classification_parses_only script scripted kennel
                JsonReader.reader "iVBO" user_prompt s "woof"
                [Returned (breed_reply "Corgi")] eq_refl) as [T1 T2].
  split; [reflexivity|]. split; [exact T1|].
  exact (T2 JsonReader.JSONDecodeError [] "a.png" [x89; x50; x4e] ["b.png"] s
            eq_refl eq_refl eq_refl eq_refl).
Defined.

Lemma batch_cell_records_witness :
  exists s',
    @listdir kennel image_folder = Returned ["b.png"; "notes.txt"; "a.png"]
    /\ @batch_cell script scripted kennel JsonReader.reader user_prompt
         (fresh two_replies [])
       = (Returned tt, s')
    /\ List.length (globals s') = 2
    /\ Forall2 (fun f record => field "image_file" record = Some (JStr f))
               ["a.png"; "b.png"] (globals s').
Proof.
  eexists. split; [reflexivity|]. split; [vm_compute; reflexivity|].
  pose proof (@batch_cell_records script scripted kennel JsonReader.reader
                user_prompt ["b.png"; "notes.txt"; "a.png"]
                (fresh two_replies []) _ eq_refl eq_refl) as T.
  cbv zeta in T. destruct T as (_ & _ & L & F & _). split; [exact L | exact F].
Defined.

(** C3, as stated, fails: every file of the folder yields a successful
    extraction, yet the one record has none of the fields the prompt
    declares. *)
Lemma record_without_declared_fields :
  exists s' record,
    @batch_cell script scripted one_dog JsonReader.reader user_prompt
      (fresh [Returned "{}"] [])
    = (Returned tt, s')
    /\ globals s' = [record]
    /\ field "image_file" record = Some (JStr "a.png")
    /\ existsb (fun k => match field k record with
                         | Some _ => true
                         | None => false
                         end) declared_fields = false.
Proof.
  eexists _, _. split; [vm_compute; reflexivity|].
  split; [reflexivity|]. split; reflexivity.
Qed.

End ClassificationFacts.

(** ** The safe-chatbot notebook *)

Module GuardFacts.
Import PyFacts GroqFacts LlamaGuard.

Section Notebook.
Context {W : Type} `{Client W}.
Abbreviation notebook := (@notebook W).

Lemma print_eq args (s : notebook) :
  print args s
  = (Returned tt,
     Store (world s) (calls s) (globals s ++ [String.concat " " args])).
Proof. reflexivity. Qed.

Lemma generate_eq cats r (s : notebook) :
  (if negb (Qle_bool (1 # 2)%Q r)
   then generate_harmful_message cats else generate_safe_message) s
  = chat_completions_create (generation_request cats r) s.
Proof. unfold generation_request. now destruct (negb _). Qed.

(** C2 (amended). With the user message generated and the moderation
    reply [verdict] received, the cell makes the downstream call, once,
    exactly when [verdict] is the text [safe]; it then prints the first
    200 characters of the reply between [LLM Response] and [...] (or
    raises what the call raised).  For any other [verdict] no further
    call is made and the community-guidelines message is printed. *)
Theorem filtering_cell_gate cats r (s : notebook) user_message w1 verdict w2 :
  create (generation_request cats r) (world s) = (Returned user_message, w1) ->
  create (text_request guard_model user_message) w1 = (Returned verdict, w2) ->
  let upstream :=
    [Exchange (generation_request cats r) (Returned user_message);
     Exchange (text_request guard_model user_message) (Returned verdict)] in
  let shown :=
    [("User Message: " ++ user_message)%string;
     ("Llama Guard 4 Response: " ++ verdict)%string] in
  let downstream := text_request chat_model user_message in
  (verdict = "safe" ->
   forall o w3,
     create downstream w2 = (o, w3) ->
     filtering_cell cats r s
     = (match o with Returned _ => Returned tt | Raised e => Raised e end,
        Store w3 (calls s ++ upstream ++ [Exchange downstream o])
              (globals s ++ shown ++
               match o with
               | Returned reply =>
                   [("LLM Response " ++ prefix_slice 200 reply ++ " ...")%string]
               | Raised _ => []
               end)))
  /\ (verdict <> "safe" ->
      filtering_cell cats r s
      = (Returned tt,
         Store w2 (calls s ++ upstream)
               (globals s ++ shown ++
                ["Your message contains content that violates our community guidelines. Please ensure your comments are respectful and safe for all users. Thank you!"])))
  /\ List.length (calls (snd (filtering_cell cats r s)))
     = List.length (calls s) + 2 + (if String.eqb verdict "safe" then 1 else 0).
Proof.
  intros G1 G2 upstream shown downstream.
  assert (Pre :
            filtering_cell cats r s
            = (if String.eqb verdict "safe"
               then (reply <- chat_completions_create downstream ;;
                     print ["LLM Response"; prefix_slice 200 reply; "..."])%py
               else print [community_guidelines_message])
                (Store w2 (calls s ++ upstream) (globals s ++ shown))).
  { unfold filtering_cell.
    unfold bind at 1. rewrite generate_eq, (create_logged _ _ _ _ G1).
    unfold bind at 1. unfold get_llamaguard_response.
    rewrite (create_logged (G := list string) _ (logged s _ _ w1) _ w2 G2).
    unfold bind at 1. rewrite print_eq. unfold bind at 1. rewrite print_eq.
    cbn. unfold upstream, shown. now rewrite <- !app_assoc. }
  assert (Safe : verdict = "safe" ->
                 forall o w3,
                   create downstream w2 = (o, w3) ->
                   filtering_cell cats r s
                   = (match o with Returned _ => Returned tt | Raised e => Raised e end,
                      Store w3 (calls s ++ upstream ++ [Exchange downstream o])
                            (globals s ++ shown ++
                             match o with
                             | Returned reply =>
                                 [("LLM Response " ++ prefix_slice 200 reply
                                   ++ " ...")%string]
                             | Raised _ => []
                             end))).
  { intros E o w3 G3. rewrite Pre, E, String.eqb_refl.
    unfold bind.
    rewrite (create_logged (G := list string) downstream
               (Store w2 (calls s ++ upstream) (globals s ++ shown)) o w3 G3).
    destruct o as [reply|e]; cbn; unfold logged; cbn; rewrite <- !app_assoc;
      now subst verdict. }
  assert (Unsafe : verdict <> "safe" ->
                   filtering_cell cats r s
                   = (Returned tt,
                      Store w2 (calls s ++ upstream)
                            (globals s ++ shown ++ [community_guidelines_message]))).
  { intros Hne. rewrite Pre. apply String.eqb_neq in Hne as ->.
    rewrite print_eq. cbn. now rewrite <- !app_assoc. }
  split; [exact Safe|]. split; [exact Unsafe|].
  destruct (String.eqb_spec verdict "safe") as [E|Hne].
  - destruct (create downstream w2) as [o w3] eqn:G3.
    rewrite (Safe E o w3 eq_refl). cbn [snd calls].
    rewrite !length_app. cbn. lia.
  - rewrite (Unsafe Hne). cbn [snd calls]. rewrite length_app. cbn. lia.
Qed.

(** C7 (amended). The wrapper hands back the moderation model's reply
    as it came: its output is a classification result exactly when the
    reply is one, and a failed call fails the wrapper. *)
Theorem get_llamaguard_response_verbatim user_message (s : notebook) o w' :
  create (text_request guard_model user_message) (world s) = (o, w') ->
  get_llamaguard_response user_message s
  = (o, logged s (text_request guard_model user_message) o w')
  /\ (forall reply,
         o = Returned reply ->
         exists output,
           fst (get_llamaguard_response user_message s) = Returned output
           /\ is_classification output = is_classification reply).
Proof.
  intros C. unfold get_llamaguard_response.
  rewrite (create_logged _ _ _ _ C). split; [reflexivity|].
  intros reply ->. now exists reply.
Qed.

End Notebook.

Import Scenario.

Lemma filtering_cell_gate_witness :
  let safe_run := fresh (story_turn "safe" "Once upon a time") [] in
  let unsafe_run :=
    fresh (story_turn ("unsafe" ++ newline ++ "S13") "Once upon a time") [] in
  @create script scripted (generation_request EmptyString (3 # 4)%Q)
     (world safe_run)
  = (Returned "Tell me a story", [Returned "safe"; Returned "Once upon a time"])
  /\ @create script scripted (text_request guard_model "Tell me a story")
       [Returned "safe"; Returned "Once upon a time"]
     = (Returned "safe", [Returned "Once upon a time"])
  /\ globals (snd (@filtering_cell script scripted EmptyString (3 # 4)%Q safe_run))
     = ["User Message: Tell me a story"; "Llama Guard 4 Response: safe";
        "LLM Response Once upon a time ..."]
  /\ List.length
       (calls (snd (@filtering_cell script scripted EmptyString (3 # 4)%Q
                      unsafe_run))) = 2.
Proof.
  intros safe_run unsafe_run.
  split; [reflexivity|]. split; [reflexivity|]. split.
  - rewrite (proj1 (@filtering_cell_gate script scripted EmptyString (3 # 4)%Q
                      safe_run "Tell me a story" _ "safe" _ eq_refl eq_refl)
                   eq_refl (Returned "Once upon a time") [] eq_refl).
    reflexivity.
  - rewrite (proj1 (proj2 (@filtering_cell_gate script scripted EmptyString
                             (3 # 4)%Q unsafe_run "Tell me a story" _
                             ("unsafe" ++ newline ++ "S13")%string _
                             eq_refl eq_refl))).
    + reflexivity.
    + discriminate.
Defined.

(** C2, as stated, fails on a long reply: the moderation reply is [safe],
    the downstream call is made and returns 201 characters, and no
    printed line contains that content. *)
Lemma long_reply_is_cut :
  let s' := snd (@filtering_cell script scripted EmptyString (3 # 4)%Q
                   (fresh (story_turn "safe" long_reply) [])) in
  map got (calls s')
  = [Returned "Tell me a story"; Returned "safe"; Returned long_reply]
  /\ existsb (contains long_reply) (globals s') = false.
Proof. vm_compute. split; reflexivity. Qed.

Lemma get_llamaguard_response_verbatim_witness :
  @create script scripted (text_request guard_model "Tell me a story")
     [Returned "safe"]
  = (Returned "safe", [])
  /\ fst (@get_llamaguard_response script scripted "Tell me a story"
            (fresh [Returned "safe"] []))
     = Returned "safe".
Proof.
  split; [reflexivity|].
  rewrite (proj1 (@get_llamaguard_response_verbatim script scripted
                    "Tell me a story" (fresh [Returned "safe"] [])
                    (Returned "safe") [] eq_refl)).
  reflexivity.
Defined.

(** C7, as stated, fails: a reply that is neither [safe] nor an [unsafe]
    verdict comes out of the wrapper as it is. *)
Lemma reply_outside_the_classification_set :
  exists output,
    fst (@get_llamaguard_response script scripted "Tell me a story"
           (fresh [Returned "I cannot help with that."] []))
    = Returned output
    /\ is_classification output = false.
Proof. eexists. split; reflexivity. Qed.

End GuardFacts.

(** ** The image-moderation app *)

Module ModerationFacts.
Import PyFacts GroqFacts ImageModeration.

Section Notebook.
Context {W : Type} `{Client W} `{Http W} `{Imaging}.
Abbreviation notebook := (@notebook W).

Lemma image_content_eq image (s : notebook) :
  image_content image s = (part_of image, s).
Proof.
  destruct image as [img|url]; [|reflexivity].
  unfold image_content, encode_image, bind, lift, part_of.
  now destruct (save_jpeg img).
Qed.

Lemma analyze_image_eq image content prompt api_key (s : notebook) o w' :
  part_of image = Returned content ->
  create (analysis_request content prompt api_key) (world s) = (o, w') ->
  analyze_image image prompt api_key s
  = (Returned (text_of o),
     logged s (analysis_request content prompt api_key) o w').
Proof.
  intros P C. unfold analyze_image, bind. rewrite image_content_eq, P.
  unfold try_except. rewrite (create_logged _ _ _ _ C). now destruct o.
Qed.

(** An image that does not serialise makes [analyze_image] raise: the
    encoding happens before the [try]. *)
Lemma analyze_image_unencodable img e prompt api_key (s : notebook) :
  save_jpeg img = Raised e ->
  analyze_image (pil img) prompt api_key s = (Raised e, s).
Proof.
  intros E. unfold analyze_image, bind. rewrite image_content_eq.
  unfold part_of. now rewrite E.
Qed.

Lemma check_content_safety_eq description api_key (s : notebook) o w' :
  create (safety_request description api_key) (world s) = (o, w') ->
  check_content_safety description api_key s
  = (Returned (text_of o), logged s (safety_request description api_key) o w').
Proof.
  intros C. unfold check_content_safety, try_except.
  rewrite (create_logged _ _ _ _ C). now destruct o.
Qed.

(** The three round trips of [analyze_and_check]. *)
Lemma analyze_and_check_eq image content prompt api_key (s : notebook)
      o1 w1 o2 w2 o3 w3 :
  let ask := analysis_request content prompt api_key in
  part_of image = Returned content ->
  create ask (world s) = (o1, w1) ->
  create ask w1 = (o2, w2) ->
  create (safety_request (text_of o2) api_key) w2 = (o3, w3) ->
  analyze_and_check image prompt api_key s
  = (Returned (text_of o1, text_of o3),
     Store w3
           (calls s ++ [Exchange ask o1; Exchange ask o2;
                        Exchange (safety_request (text_of o2) api_key) o3])
           (globals s)).
Proof.
  intros ask P C1 C2 C3. unfold analyze_and_check.
  rewrite (bind_returned _ _ _ _ _ (analyze_image_eq _ _ _ _ _ _ _ P C1)).
  rewrite (bind_returned _ _ _ _ _
             (analyze_image_eq image content prompt api_key (logged s ask o1 w1)
                               o2 w2 P C2)).
  rewrite (bind_returned _ _ _ _ _
             (check_content_safety_eq (text_of o2) api_key
                (logged (logged s ask o1 w1) ask o2 w2) o3 w3 C3)).
  unfold ret, logged. cbn. now rewrite <- !app_assoc.
Qed.

Lemma http_get_eq url (s : notebook) o w' :
  requests_get url (world s) = (o, w') ->
  http_get url s = (o, Store w' (calls s) (globals s)).
Proof. unfold http_get. now intros ->. Qed.

(** C9. Without an uploaded image, a URL that cannot be fetched or
    does not open as an image gives the fixed invalid-URL message and
    an empty second output; with neither image nor URL the app asks
    for an image.  Nothing is raised in either case. *)
Theorem process_image_reports_bad_input url prompt api_key (s : notebook) :
  (truthy url = true ->
   forall o w',
     requests_get (url_text url) (world s) = (o, w') ->
     match o with
     | Raised _ => True
     | Returned data => exists e, Image_open data = Raised e
     end ->
     process_image None url prompt api_key s
     = (Returned ("Invalid image URL. Please provide a direct link to an image.",
                  EmptyString),
        Store w' (calls s) (globals s)))
  /\ (truthy url = false ->
      process_image None url prompt api_key s
      = (Returned ("Please provide an image to analyze.", EmptyString), s)).
Proof.
  unfold process_image. split.
  - intros -> o w' G Bad. unfold try_except, bind at 1.
    rewrite (http_get_eq _ _ _ _ G).
    destruct o as [data|e]; [|reflexivity].
    destruct Bad as [e Bad]. unfold bind, lift. now rewrite Bad.
  - intros ->. reflexivity.
Qed.

(** C10. For an uploaded image (one that serialises to JPEG), and for a
    URL that opens as an image, [process_image] calls [analyze_image]
    twice with the same arguments, so the same analysis request is sent
    twice; the first reply is what it shows, the second is what it passes
    to the safety check.  With an endpoint that answers the two requests
    differently, the description shown is not the description checked. *)
Theorem process_image_analyzes_twice prompt api_key (s : notebook) :
  (forall img buffered url o1 w1 o2 w2 o3 w3,
      let ask :=
        analysis_request
          (image_url_part (Base64.data_uri (Base64.b64encode buffered)))
          prompt api_key in
      save_jpeg img = Returned buffered ->
      create ask (world s) = (o1, w1) ->
      create ask w1 = (o2, w2) ->
      create (safety_request (text_of o2) api_key) w2 = (o3, w3) ->
      process_image (Some img) url prompt api_key s
      = (Returned (text_of o1, text_of o3),
         Store w3
               (calls s ++ [Exchange ask o1; Exchange ask o2;
                            Exchange (safety_request (text_of o2) api_key) o3])
               (globals s)))
  /\ (forall url data w0 img o1 w1 o2 w2 o3 w3,
         let ask :=
           analysis_request (image_url_part (url_text url)) prompt api_key in
         truthy url = true ->
         requests_get (url_text url) (world s) = (Returned data, w0) ->
         Image_open data = Returned img ->
         create ask w0 = (o1, w1) ->
         create ask w1 = (o2, w2) ->
         create (safety_request (text_of o2) api_key) w2 = (o3, w3) ->
         process_image None url prompt api_key s
         = (Returned (text_of o1, text_of o3),
            Store w3
                  (calls s ++ [Exchange ask o1; Exchange ask o2;
                               Exchange (safety_request (text_of o2) api_key) o3])
                  (globals s)))
  /\ (exists shown verdict checked s',
         @process_image Scenario.script Scenario.scripted Scenario.one_page
           Scenario.pixels (Some Scenario.cat_photo) None prompt api_key
           (Scenario.fresh Scenario.two_descriptions tt)
         = (Returned (shown, verdict), s')
         /\ map sent (skipn 2 (calls s')) = [safety_request checked api_key]
         /\ shown <> checked).
Proof.
  split; [|split].
  - intros img buffered url o1 w1 o2 w2 o3 w3 ask J C1 C2 C3. subst ask.
    cbn [process_image].
    assert (P : part_of (pil img)
                = Returned (image_url_part
                              (Base64.data_uri (Base64.b64encode buffered))))
      by (unfold part_of; now rewrite J).
    exact (analyze_and_check_eq _ _ _ _ _ _ _ _ _ _ _ P C1 C2 C3).
  - intros url data w0 img o1 w1 o2 w2 o3 w3 ask T G O C1 C2 C3. subst ask.
    unfold process_image. rewrite T. unfold try_except, bind at 1.
    rewrite (http_get_eq _ _ _ _ G).
    unfold bind at 1, lift. rewrite O.
    now rewrite (analyze_and_check_eq (link (url_text url)) _ prompt api_key
                   (Store w0 (calls s) (globals s)) _ _ _ _ _ _ eq_refl
                   C1 C2 C3).
  - exists "A cat on a sofa.", "safe", "A tiger in tall grass.".
    eexists. split; [reflexivity|]. split; [reflexivity|discriminate].
Qed.

End Notebook.

Section Wrappers.
Context {W : Type} `{Client W}.

(** C4 (amended). [check_content_safety] always returns a string: the
    reply, or [Error: ] followed by the message of the exception the
    call raised.  [get_llamaguard_response] has no handler: what the
    call raises, it raises. *)
Theorem moderation_wrapper_errors description api_key (s : store W unit)
        user_message (t : LlamaGuard.notebook) e w' :
  (create (safety_request description api_key) (world s) = (Raised e, w') ->
   check_content_safety description api_key s
   = (Returned ("Error: " ++ exn_str e)%string,
      logged s (safety_request description api_key) (Raised e) w'))
  /\ (forall reply,
         create (safety_request description api_key) (world s)
         = (Returned reply, w') ->
         check_content_safety description api_key s
         = (Returned reply,
            logged s (safety_request description api_key) (Returned reply) w'))
  /\ (create (LlamaGuard.text_request LlamaGuard.guard_model user_message)
             (world t) = (Raised e, w') ->
      LlamaGuard.get_llamaguard_response user_message t
      = (Raised e,
         logged t (LlamaGuard.text_request LlamaGuard.guard_model user_message)
                (Raised e) w')).
Proof.
  split; [|split].
  - intros C. unfold check_content_safety, try_except.
    now rewrite (create_logged _ _ _ _ C).
  - intros reply C. unfold check_content_safety, try_except.
    now rewrite (create_logged _ _ _ _ C).
  - intros C. unfold LlamaGuard.get_llamaguard_response.
    now rewrite (create_logged _ _ _ _ C).
Qed.

End Wrappers.

Import Scenario.

Lemma process_image_reports_bad_input_witness :
  @process_image script scripted one_page pixels None
    (Some "https://example.com/missing.jpg") "Describe the image content." "gsk"
    (fresh two_descriptions tt)
  = (Returned ("Invalid image URL. Please provide a direct link to an image.",
               EmptyString),
     fresh two_descriptions tt)
  /\ @process_image script scripted one_page pixels None (Some EmptyString)
       "Describe the image content." "gsk" (fresh two_descriptions tt)
     = (Returned ("Please provide an image to analyze.", EmptyString),
        fresh two_descriptions tt).
Proof.
  split.
  - exact (proj1 (@process_image_reports_bad_input script scripted one_page pixels
                    (Some "https://example.com/missing.jpg")
                    "Describe the image content." "gsk"
                    (fresh two_descriptions tt))
                 eq_refl _ _ eq_refl I).
  - exact (proj2 (@process_image_reports_bad_input script scripted one_page pixels
                    (Some EmptyString) "Describe the image content." "gsk"
                    (fresh two_descriptions tt))
                 eq_refl).
Defined.

Lemma process_image_analyzes_twice_witness :
  fst (@process_image script scripted one_page pixels (Some cat_photo) None
         "Describe the image content." "gsk" (fresh two_descriptions tt))
  = Returned ("A cat on a sofa.", "safe")
  /\ fst (@process_image script scripted one_page pixels None (Some cat_url)
            "Describe the image content." "gsk" (fresh two_descriptions tt))
     = Returned ("A cat on a sofa.", "safe").
Proof.
  destruct (@process_image_analyzes_twice script scripted one_page pixels
              "Describe the image content." "gsk" (fresh two_descriptions tt))
    as (A & B & _).
  split.
  - exact (f_equal fst
             (A cat_photo cat_photo None (Returned "A cat on a sofa.") _
                (Returned "A tiger in tall grass.") _ (Returned "safe") _
                eq_refl eq_refl eq_refl eq_refl)).
  - exact (f_equal fst
             (B (Some cat_url) cat_photo _ cat_photo
                (Returned "A cat on a sofa.") _
                (Returned "A tiger in tall grass.") _ (Returned "safe") _
                eq_refl eq_refl eq_refl eq_refl eq_refl eq_refl)).
Defined.

Lemma moderation_wrapper_errors_witness :
  fst (@check_content_safety script scripted "A cat on a sofa." "gsk"
         (fresh [Raised connection_error] tt))
  = Returned "Error: Connection error."
  /\ fst (@check_content_safety script scripted "A cat on a sofa." "gsk"
            (fresh [Returned "safe"] tt))
     = Returned "safe".
Proof.
  split.
  - exact (f_equal fst
             (proj1 (@moderation_wrapper_errors script scripted
                       "A cat on a sofa." "gsk"
                       (fresh [Raised connection_error] tt)
                       "Tell me a story" (fresh [] []) connection_error [])
                    eq_refl)).
  - exact (f_equal fst
             (proj1 (proj2 (@moderation_wrapper_errors script scripted
                              "A cat on a sofa." "gsk"
                              (fresh [Returned "safe"] tt)
                              "Tell me a story" (fresh [] []) connection_error []))
                    "safe" eq_refl)).
Defined.

(** C4, as stated, fails for the wrapper of the chatbot notebook: when
    the call raises, so does [get_llamaguard_response]. *)
Lemma get_llamaguard_response_propagates :
  fst (@LlamaGuard.get_llamaguard_response script scripted "Tell me a story"
         (fresh [Raised connection_error] []))
  = Raised connection_error.
Proof. reflexivity. Qed.

End ModerationFacts.

(** ** The Mixture-of-Agents pipeline *)

Module MoAFacts.
Import PyFacts MixtureOfAgents.

Lemma concat_response_three n1 o1 n2 o2 n3 o3 :
  concat_response [(n1, o1); (n2, o2); (n3, o3)]
  = (before REFERENCE_SYSTEM_PROMPT
     ++ "0. " ++ o1 ++ newline ++ "1. " ++ o2 ++ newline
     ++ "2. " ++ o3 ++ newline
     ++ after REFERENCE_SYSTEM_PROMPT)%string.
Proof.
  unfold concat_response, format. cbn [map snd numbered].
  change (str_of_nat 0) with "0". change (str_of_nat 1) with "1".
  change (str_of_nat 2) with "2".
  rewrite append_empty_r. f_equal.
  repeat (rewrite !append_assoc; cbn [append]; f_equal).
Qed.

Section Pipeline.
Context {W : Type} `{ChatGroq W}.
Abbreviation book := (notebook W).

Lemma extends_refl h (s : book) : extends h s s.
Proof. split; [reflexivity|]. exists []. now rewrite app_nil_r. Qed.

Lemma extends_trans h (s1 s2 s3 : book) :
  extends h s1 s2 -> extends h s2 s3 -> extends h s1 s3.
Proof.
  intros [M1 (a1 & T1 & F1)] [M2 (a2 & T2 & F2)]. split; [congruence|].
  exists (a1 ++ a2). rewrite T2, T1, app_assoc. split; [reflexivity|].
  now apply Forall_app.
Qed.

Lemma agent_invoke_inv a inp (s : book) r s' :
  agent_invoke a inp s = (r, s') ->
  trace s' = trace s ++ [Invoked a inp r] /\ CHAT_MEMORY s' = CHAT_MEMORY s
  /\ extends (history inp) s s'.
Proof.
  unfold agent_invoke. destruct (llm_invoke _ _ _ _) as [o w'].
  intros E. injection E as <- <-. cbn. repeat split; auto.
  eexists. split; [reflexivity|]. now repeat constructor.
Qed.

Lemma run_parallel_extends steps inp (s : book) r s' :
  run_parallel steps inp s = (r, s') -> extends (history inp) s s'.
Proof.
  revert s r s'. induction steps as [|[name a] steps IH]; intros s r s' E; cbn in E.
  - injection E as <- <-. apply extends_refl.
  - unfold bind at 1 in E.
    destruct (agent_invoke a inp s) as [[out|e] s1] eqn:A;
      apply agent_invoke_inv in A as (_ & _ & X1).
    + unfold bind at 1 in E.
      destruct (run_parallel steps inp s1) as [[outs|e] s2] eqn:R;
        apply IH in R; injection E as <- <-; eapply extends_trans; eauto.
    + injection E as <- <-. exact X1.
Qed.

Lemma run_parallel_returned steps inp (s : book) named s' :
  run_parallel steps inp s = (Returned named, s') ->
  exists outs,
    List.length outs = List.length steps
    /\ named = combine (map fst steps) outs
    /\ trace s' = trace s ++ round_events steps inp outs.
Proof.
  revert s named s'. induction steps as [|[name a] steps IH]; intros s named s' E; cbn in E.
  - injection E as <- <-. exists []. rewrite app_nil_r. auto.
  - apply bind_returned_inv in E as (out & s1 & A & E).
    apply bind_returned_inv in E as (outs & s2 & R & E).
    injection E as <- <-.
    apply agent_invoke_inv in A as (T1 & _ & _).
    apply IH in R as (os & L & -> & T2).
    exists (out :: os). cbn. rewrite L, T2, T1, <- app_assoc. auto.
Qed.

Lemma bind_rel {S A B} (R : S -> S -> Prop) (m : M S A) (k : A -> M S B) s r s' :
  (forall x y z, R x y -> R y z -> R x z) ->
  (forall r1 s1, m s = (r1, s1) -> R s s1) ->
  (forall a s1 r2 s2, m s = (Returned a, s1) -> k a s1 = (r2, s2) -> R s1 s2) ->
  bind m k s = (r, s') -> R s s'.
Proof.
  intros T Hm Hk. unfold bind. destruct (m s) as [[a|e] s1] eqn:E; intros E'.
  - eapply T; [eapply Hm; eauto | eapply Hk; eauto].
  - injection E' as <- <-. eapply Hm; eauto.
Qed.

Lemma layer_invoke_extends layer inp (s : book) r s' :
  layer_invoke layer inp s = (r, s') -> extends (history inp) s s'.
Proof.
  unfold layer_invoke. apply bind_rel.
  - apply extends_trans.
  - intros r1 s1. apply run_parallel_extends.
  - intros a s1 r2 s2 _ E. injection E as <- <-. apply extends_refl.
Qed.

Lemma cycle_loop_extends n layer q inp (s : book) r s' :
  history inp = CHAT_MEMORY s ->
  cycle_loop n layer q inp s = (r, s') -> extends (CHAT_MEMORY s) s s'.
Proof.
  revert inp s r s'. induction n as [|n IH]; intros inp s r s' Hh E; cbn in E.
  - injection E as <- <-. apply extends_refl.
  - unfold bind at 1, load_memory_variables in E.
    revert E. apply bind_rel.
    + apply extends_trans.
    + intros r1 s1 L. rewrite <- Hh. now apply layer_invoke_extends in L.
    + intros helper s1 r2 s2 L E.
      apply layer_invoke_extends in L as [M1 _].
      apply IH in E; [|cbn; congruence]. now rewrite M1 in E.
Qed.

Lemma cycle_loop_returned n layer q inp (s : book) inp' s' :
  cycle_loop n layer q inp s = (Returned inp', s') ->
  exists rounds,
    List.length rounds = n
    /\ Forall (fun outs => List.length outs = List.length layer) rounds
    /\ trace s' = trace s ++ cycles_events layer q (CHAT_MEMORY s) inp rounds
    /\ inp' = final_input layer q (CHAT_MEMORY s) inp rounds.
Proof.
  revert inp s inp' s'. induction n as [|n IH]; intros inp s inp' s' E; cbn in E.
  - injection E as <- <-. exists []. cbn. rewrite app_nil_r. auto.
  - apply bind_returned_inv in E as (helper & s1 & Y & E).
    unfold layer_invoke in Y.
    apply bind_returned_inv in Y as (named & s1' & R & Y).
    injection Y as <- <-.
    pose proof (run_parallel_extends _ _ _ _ _ R) as [M1 _].
    apply run_parallel_returned in R as (outs & Lo & -> & T1).
    apply IH in E as (rounds & Lr & Fr & T2 & ->).
    exists (outs :: rounds). cbn. rewrite M1 in *.
    rewrite T2, T1, <- app_assoc. repeat split; auto.
Qed.
Lemma advance_eq q response chunks failure (s : book) :
  advance q response chunks failure s =
  match chunks, failure with
  | c :: rest, _ => (Returned (Yield c (Suspended q response c rest failure)), s)
  | [], Some e => (Raised e, s)
  | [], None => (Returned StopIteration, saved s q response)
  end.
Proof. destruct chunks, failure; reflexivity. Qed.

Lemma next_created q (s : book) :
  next (Created q) s =
  match cycle_loop CYCLES LAYER_AGENT q
                   (LlmInput q (CHAT_MEMORY s) EmptyString) s with
  | (Raised e, s1) => (Raised e, s1)
  | (Returned inp, s1) =>
      let (r, w') := llm_stream (model_name MAIN_AGENT) (temperature MAIN_AGENT)
                                (format_prompt MAIN_AGENT inp) (world s1) in
      advance q EmptyString (fst r) (snd r) (streamed s1 inp r w')
  end.
Proof.
  cbn [next]. unfold bind at 1, load_memory_variables.
  unfold bind at 1.
  destruct (cycle_loop _ _ _ _ s) as [[inp|e] s1]; [|reflexivity].
  unfold bind, agent_stream, streamed.
  now destruct (llm_stream _ _ _ _) as [r w'].
Qed.

Lemma joined_cons response c chunks :
  joined response (c :: chunks) = joined (response ++ c) chunks.
Proof. reflexivity. Qed.

Lemma iterate_suspended q failure rest :
  forall response c fuel (s : book),
    List.length rest < fuel ->
    iterate fuel (Suspended q response c rest failure) s =
    match failure with
    | None => (Returned rest, saved s q (joined (response ++ c) rest))
    | Some e => (Raised e, s)
    end.
Proof.
  induction rest as [|c' rest IH]; intros response c fuel s Hf;
    (destruct fuel as [|fuel]; [cbn in Hf; lia|]); cbn [iterate].
  - unfold bind. cbn [next]. rewrite advance_eq.
    now destruct failure.
  - unfold bind at 1. cbn [next]. rewrite advance_eq.
    unfold bind. rewrite IH by (cbn in Hf; lia).
    now destruct failure.
Qed.

Lemma turn_eq q (s : book) :
  turn q s =
  match cycle_loop CYCLES LAYER_AGENT q
                   (LlmInput q (CHAT_MEMORY s) EmptyString) s with
  | (Raised e, s1) => (Raised e, s1)
  | (Returned inp, s1) =>
      let (r, w') := llm_stream (model_name MAIN_AGENT) (temperature MAIN_AGENT)
                                (format_prompt MAIN_AGENT inp) (world s1) in
      match snd r with
      | None => (Returned (fst r),
                 saved (streamed s1 inp r w') q (joined EmptyString (fst r)))
      | Some e => (Raised e, streamed s1 inp r w')
      end
  end.
Proof.
  unfold turn, bind at 1. unfold chat_stream. rewrite next_created.
  destruct (cycle_loop _ _ _ _ s) as [[inp|e] s1]; [|reflexivity].
  destruct (llm_stream _ _ _ _) as [[chunks failure] w']. cbn [fst snd].
  rewrite advance_eq. destruct chunks as [|c rest].
  - now destruct failure.
  - unfold bind. rewrite iterate_suspended by (cbn; lia).
    now destruct failure.
Qed.
Lemma resumes_suspended q failure cs :
  forall response c rest (s : book) g s1,
    resumes (Suspended q response c rest failure) s cs g s1 ->
    s1 = s
    /\ exists response' c' rest',
         g = Suspended q response' c' rest' failure
         /\ (response' ++ c')%string = joined (response ++ c) cs.
Proof.
  induction cs as [|c1 cs IH]; intros response c rest s g s1 R;
    inversion R; subst.
  - split; [reflexivity|]. now exists response, c, rest.
  - match goal with N : next _ _ = _ |- _ =>
      cbn [next] in N; rewrite advance_eq in N;
      destruct rest as [|c1' rest1]; [destruct failure; discriminate|];
      injection N as <- <- <-
    end.
    match goal with R' : resumes _ _ cs _ _ |- _ =>
      apply IH in R' as (-> & response' & c' & rest' & -> & J)
    end.
    split; [reflexivity|]. now exists response', c', rest'.
Qed.

Lemma created_extends q (s : book) r s1 :
  cycle_loop CYCLES LAYER_AGENT q (LlmInput q (CHAT_MEMORY s) EmptyString) s
  = (r, s1) ->
  extends (CHAT_MEMORY s) s s1.
Proof. now apply cycle_loop_extends. Qed.

Lemma streamed_extends h (s : book) inp r w' :
  history inp = h -> extends h s (streamed s inp r w').
Proof.
  intros Hh. split; [reflexivity|]. eexists. split; [reflexivity|].
  now repeat constructor.
Qed.

Lemma cycle_loop_history n layer q inp (s : book) inp' s' :
  history inp = CHAT_MEMORY s ->
  cycle_loop n layer q inp s = (Returned inp', s') ->
  history inp' = CHAT_MEMORY s.
Proof.
  intros Hh E. apply cycle_loop_returned in E as (rounds & _ & _ & _ & ->).
  clear - Hh. revert inp Hh. induction rounds as [|outs rounds IH]; intros inp Hh; cbn.
  - exact Hh.
  - now apply IH.
Qed.
(** What [next] does to the memory, from any point of a turn. *)
Lemma next_memory q (s : book) cs g s1 r s2 :
  resumes (chat_stream q) s cs g s1 ->
  next g s1 = (r, s2) ->
  CHAT_MEMORY s1 = CHAT_MEMORY s
  /\ match r with
     | Returned StopIteration =>
         CHAT_MEMORY s2
         = CHAT_MEMORY s ++ [HumanMessage q; AIMessage (joined EmptyString cs)]
     | _ => CHAT_MEMORY s2 = CHAT_MEMORY s
     end.
Proof.
  assert (Fresh : forall r s2, next (Created q) s = (r, s2) ->
            match r with
            | Returned StopIteration =>
                CHAT_MEMORY s2
                = CHAT_MEMORY s ++ [HumanMessage q; AIMessage EmptyString]
            | Returned (Yield c g1) =>
                CHAT_MEMORY s2 = CHAT_MEMORY s
                /\ exists rest failure,
                     g1 = Suspended q EmptyString c rest failure
            | Raised _ => CHAT_MEMORY s2 = CHAT_MEMORY s
            end).
  { intros r0 s0 N. rewrite next_created in N.
    destruct (cycle_loop _ _ _ _ s) as [[inp|e] sa] eqn:C;
      apply created_extends in C as [Ma _].
    - destruct (llm_stream _ _ _ _) as [[chunks failure] w'].
      rewrite advance_eq in N. cbn [fst snd] in N.
      destruct chunks as [|c rest]; [destruct failure|];
        injection N as <- <-; cbn; try congruence.
      split; [congruence|eauto].
    - now injection N as <- <-. }
  intros R N. unfold chat_stream in R. inversion R; subst.
  - split; [reflexivity|]. apply Fresh in N. cbn [joined fold_left].
    destruct r as [[c g1|]|e]; intuition.
  - match goal with N1 : next (Created q) s = _ |- _ =>
      apply Fresh in N1 as (M1 & rest & failure & ->) end.
    match goal with R1 : resumes (Suspended _ _ _ _ _) _ _ _ _ |- _ =>
      apply resumes_suspended in R1 as (-> & response' & c' & rest' & -> & J) end.
    split; [exact M1|].
    cbn [next] in N. rewrite advance_eq in N.
    destruct rest' as [|c2 rest2]; [destruct failure|];
      injection N as <- <-; cbn; try congruence.
    rewrite M1, J. reflexivity.
Qed.
(** C1. A completed turn of [chat_stream] adds to the trace the calls of
    [CYCLES] cycles, each cycle invoking every agent of [LAYER_AGENT]
    once on the same input, followed by one streaming call of
    [MAIN_AGENT]: [CYCLES * 3] layer calls, [CYCLES] per layer agent,
    and one main call.  The main agent's input carries as
    [helper_response] the concatenation, by [concat_response], of the
    three replies of the last cycle. *)
Theorem chat_stream_calls query (s : book) chunks s' :
  turn query s = (Returned chunks, s') ->
  exists rounds earlier last_input o1 o2 o3,
    let memory := CHAT_MEMORY s in
    let first := LlmInput query memory EmptyString in
    let layer_calls := cycles_events LAYER_AGENT query memory first rounds in
    let final := final_input LAYER_AGENT query memory first rounds in
    trace s' = trace s ++ layer_calls ++ [Streamed MAIN_AGENT final chunks None]
    /\ List.length rounds = CYCLES
    /\ Forall (fun outs => List.length outs = 3) rounds
    /\ List.length layer_calls = CYCLES * 3
    /\ (forall name a, In (name, a) LAYER_AGENT ->
                       invocations a layer_calls = CYCLES)
    /\ invocations MAIN_AGENT layer_calls = 0
    /\ streamings MAIN_AGENT
         (layer_calls ++ [Streamed MAIN_AGENT final chunks None]) = 1
    /\ layer_calls = earlier ++ round_events LAYER_AGENT last_input [o1; o2; o3]
    /\ helper_response final
       = concat_response [("layer_agent_1", o1); ("layer_agent_2", o2);
                          ("layer_agent_3", o3)]
    /\ helper_response final
       = (before REFERENCE_SYSTEM_PROMPT
          ++ "0. " ++ o1 ++ newline ++ "1. " ++ o2 ++ newline
          ++ "2. " ++ o3 ++ newline
          ++ after REFERENCE_SYSTEM_PROMPT)%string.
Proof.
  intros T. rewrite turn_eq in T.
  destruct (cycle_loop _ _ _ _ s) as [[inp|e] s1] eqn:C; [|discriminate].
  destruct (llm_stream _ _ _ _) as [[cs failure] w'].
  cbn [fst snd] in T. destruct failure; [discriminate|].
  injection T as <- <-.
  apply cycle_loop_returned in C as (rounds & L & F & Tr & ->).
  destruct rounds as [|r1 [|r2 [|r3 [|]]]]; try discriminate L.
  inversion F as [|? ? F1 F']; subst. inversion F' as [|? ? F2 F'']; subst.
  inversion F'' as [|? ? F3 _]; subst.
  destruct r1 as [|a1 [|a2 [|a3 [|]]]]; try discriminate F1.
  destruct r2 as [|b1 [|b2 [|b3 [|]]]]; try discriminate F2.
  destruct r3 as [|o1 [|o2 [|o3 [|]]]]; try discriminate F3.
  exists [[a1; a2; a3]; [b1; b2; b3]; [o1; o2; o3]].
  exists (cycles_events LAYER_AGENT query (CHAT_MEMORY s)
            (LlmInput query (CHAT_MEMORY s) EmptyString)
            [[a1; a2; a3]; [b1; b2; b3]]),
         (final_input LAYER_AGENT query (CHAT_MEMORY s)
            (LlmInput query (CHAT_MEMORY s) EmptyString)
            [[a1; a2; a3]; [b1; b2; b3]]),
         o1, o2, o3.
  cbv zeta.
  split. { cbn [saved streamed trace]. rewrite Tr, <- app_assoc. reflexivity. }
  split; [reflexivity|]. split; [now repeat constructor|].
  split; [reflexivity|].
  split. { intros name a [X|[X|[X|[]]]]; injection X as <- <-; reflexivity. }
  split; [reflexivity|]. split; [reflexivity|]. split; [reflexivity|].
  split; [reflexivity|]. apply concat_response_three.
Qed.

(** C6. Wherever the consumer stands in a turn, the memory is the one
    the turn started with; a [next] changes it only when it ends the
    stream, and then by appending the query and the concatenation of
    the chunks delivered.  So a completed turn appends exactly that
    pair, a turn that raises appends nothing, nothing is ever removed,
    and every agent called during the turn was given the memory the
    turn started with. *)
Theorem chat_memory_append_only query (s : book) :
  (forall cs g s1 r s2,
      resumes (chat_stream query) s cs g s1 ->
      next g s1 = (r, s2) ->
      CHAT_MEMORY s1 = CHAT_MEMORY s
      /\ match r with
         | Returned StopIteration =>
             CHAT_MEMORY s2
             = CHAT_MEMORY s
               ++ [HumanMessage query; AIMessage (joined EmptyString cs)]
         | _ => CHAT_MEMORY s2 = CHAT_MEMORY s
         end)
  /\ (forall r s',
         turn query s = (r, s') ->
         (exists added,
             trace s' = trace s ++ added
             /\ Forall (fun ev => history (event_input ev) = CHAT_MEMORY s) added)
         /\ match r with
            | Returned chunks =>
                CHAT_MEMORY s'
                = CHAT_MEMORY s
                  ++ [HumanMessage query; AIMessage (joined EmptyString chunks)]
            | Raised _ => CHAT_MEMORY s' = CHAT_MEMORY s
            end).
Proof.
  split.
  - intros cs g s1 r s2. apply next_memory.
  - intros r s' T. rewrite turn_eq in T.
    destruct (cycle_loop _ _ _ _ s) as [[inp|e] s1] eqn:C.
    + pose proof (cycle_loop_history CYCLES LAYER_AGENT query
                    (LlmInput query (CHAT_MEMORY s) EmptyString) s inp s1
                    eq_refl C) as Hh.
      apply created_extends in C.
      destruct (llm_stream _ _ _ _) as [[cs failure] w'].
      pose proof (extends_trans _ _ _ _ C
                    (streamed_extends _ s1 inp (cs, failure) w' Hh))
        as [M (added & Tr & Fa)].
      cbn [fst snd] in T. destruct failure; injection T as <- <-.
      * split; [now exists added|exact M].
      * split; [now exists added|]. cbn. now rewrite <- M.
    + injection T as <- <-. apply created_extends in C as [M X]. now split.
Qed.
(** A turn goes through when no call raises and the stream does not
    break off. *)
Lemma run_parallel_completes steps inp (s : book) :
  (forall m t p w, exists out, fst (llm_invoke m t p w) = Returned out) ->
  exists named s', run_parallel steps inp s = (Returned named, s').
Proof.
  intros Ok. revert s. induction steps as [|[name a] steps IH]; intros s; cbn.
  - now eexists _, _.
  - unfold bind at 1, agent_invoke.
    destruct (Ok (model_name a) (temperature a) (format_prompt a inp) (world s))
      as [out E].
    destruct (llm_invoke _ _ _ _) as [o w']. cbn in E. subst o.
    unfold bind at 1.
    destruct (IH (Notebook w' (trace s ++ [Invoked a inp (Returned out)])
                           (CHAT_MEMORY s))) as (named & s' & ->).
    now eexists _, _.
Qed.

Lemma cycle_loop_completes n layer q inp (s : book) :
  (forall m t p w, exists out, fst (llm_invoke m t p w) = Returned out) ->
  exists inp' s', cycle_loop n layer q inp s = (Returned inp', s').
Proof.
  intros Ok. revert inp s. induction n as [|n IH]; intros inp s; cbn.
  - now eexists _, _.
  - unfold bind at 1, layer_invoke. unfold bind at 1.
    destruct (run_parallel_completes layer inp s Ok) as (named & s1 & ->).
    cbn. apply IH.
Qed.

Lemma turn_completes q (s : book) :
  (forall m t p w, exists out, fst (llm_invoke m t p w) = Returned out) ->
  (forall m t p w, snd (fst (llm_stream m t p w)) = None) ->
  exists chunks s', turn q s = (Returned chunks, s').
Proof.
  intros Ok Whole. rewrite turn_eq.
  destruct (cycle_loop_completes CYCLES LAYER_AGENT q
              (LlmInput q (CHAT_MEMORY s) EmptyString) s Ok) as (inp & s1 & ->).
  specialize (Whole (model_name MAIN_AGENT) (temperature MAIN_AGENT)
                    (format_prompt MAIN_AGENT inp) (world s1)).
  destruct (llm_stream _ _ _ _) as [[chunks failure] w']. cbn in Whole.
  subst failure. now eexists _, _.
Qed.

End Pipeline.

Import Scenario.

Lemma chat_stream_calls_witness :
  let s' := snd (@turn studio scripted_llm "Hi" opening) in
  @turn studio scripted_llm "Hi" opening = (Returned ["Hel"; "lo"], s')
  /\ List.length (trace s') = 10.
Proof.
  intros s'.
  assert (T : @turn studio scripted_llm "Hi" opening = (Returned ["Hel"; "lo"], s'))
    by (vm_compute; reflexivity).
  split; [exact T|].
  destruct (@chat_stream_calls studio scripted_llm "Hi" opening ["Hel"; "lo"] s' T)
    as (rounds & earlier & last_input & o1 & o2 & o3 & Tr & _ & _ & N & _).
  cbv zeta in Tr, N. rewrite Tr, !length_app, N. reflexivity.
Defined.

Lemma chat_memory_append_only_witness :
  let mid := @next studio scripted_llm (chat_stream "Hi") opening in
  let s2 := snd (@turn studio scripted_llm "Hi" opening) in
  exists g s1,
    mid = (Returned (Yield "Hel" g), s1)
    /\ CHAT_MEMORY s1 = CHAT_MEMORY opening
    /\ @turn studio scripted_llm "Hi" opening = (Returned ["Hel"; "lo"], s2)
    /\ CHAT_MEMORY s2 = [HumanMessage "Hi"; AIMessage "Hello"].
Proof.
  intros mid s2.
  destruct (@chat_memory_append_only studio scripted_llm "Hi" opening) as [A B].
  assert (N : mid = (Returned (Yield "Hel"
                                 (Suspended "Hi" EmptyString "Hel" ["lo"] None)),
                     snd mid))
    by (vm_compute; reflexivity).
  assert (T : @turn studio scripted_llm "Hi" opening = (Returned ["Hel"; "lo"], s2))
    by (vm_compute; reflexivity).
  eexists _, _. split; [exact N|]. split.
  - exact (proj2 (A [] _ _ _ _ (resumes_nil _ _) N)).
  - split; [exact T|]. exact (proj2 (B _ _ T)).
Defined.

End MoAFacts.


(** ** More on the encoding *)

Module EncodingFacts.
Import Base64 Base64Facts PyFacts ImageClassification.

Lemma b2a_in_alphabet (i : N) : (i < 64)%N -> In (b2a i) alphabet.
Proof.
  intros Hi. unfold b2a. apply nth_In.
  change (List.length alphabet) with 64. lia.
Qed.

Lemma b64encode_length (bs : list byte) :
  String.length (b64encode bs) = 4 * ((List.length bs + 2) / 3).
Proof.
  induction bs as [|x|x y|x y z l IH] using list_ind3.
  - reflexivity.
  - cbn [b64encode String.length List.length]. reflexivity.
  - cbn [b64encode String.length List.length]. reflexivity.
  - cbn [b64encode String.length List.length]. rewrite IH.
    replace (S (S (S (List.length l))) + 2) with (List.length l + 2 + 1 * 3) by lia.
    rewrite Nat.div_add by lia. lia.
Qed.

Lemma sextet_char (i : N) : (i < 64)%N -> payload_char (b2a i).
Proof. intros Hi. left. now apply b2a_in_alphabet. Qed.

Lemma pad_char : payload_char pad.
Proof. now right. Qed.

Lemma b64encode_chars (bs : list byte) :
  Forall payload_char (list_ascii_of_string (b64encode bs)).
Proof.
  induction bs as [|x|x y|x y z l IH] using list_ind3;
    cbn [b64encode list_ascii_of_string].
  - apply Forall_nil.
  - pose proof (Byte.to_N_bounded x) as Hx.
    destruct (group3 (Byte.to_N x) 0 0) as (A1 & _ & _ & _ & A5 & _); try lia.
    apply Forall_cons; [now apply sextet_char|].
    apply Forall_cons; [now apply sextet_char|].
    apply Forall_cons; [apply pad_char|].
    apply Forall_cons; [apply pad_char|apply Forall_nil].
  - pose proof (Byte.to_N_bounded x) as Hx.
    pose proof (Byte.to_N_bounded y) as Hy.
    destruct (group3 (Byte.to_N x) (Byte.to_N y) 0)
      as (A1 & A2 & _ & _ & _ & A6 & _); try lia.
    apply Forall_cons; [now apply sextet_char|].
    apply Forall_cons; [now apply sextet_char|].
    apply Forall_cons; [now apply sextet_char|].
    apply Forall_cons; [apply pad_char|apply Forall_nil].
  - pose proof (Byte.to_N_bounded x) as Hx.
    pose proof (Byte.to_N_bounded y) as Hy.
    pose proof (Byte.to_N_bounded z) as Hz.
    destruct (group3 (Byte.to_N x) (Byte.to_N y) (Byte.to_N z))
      as (A1 & A2 & A3 & A4 & _); try lia.
    apply Forall_cons; [now apply sextet_char|].
    apply Forall_cons; [now apply sextet_char|].
    apply Forall_cons; [now apply sextet_char|].
    apply Forall_cons; [now apply sextet_char|exact IH].
Qed.

Section Files.
Context {W : Type} `{FileSystem}.

(** X1. For a file of [n] bytes [encode_image] returns a string of
    [4 * ceil(n / 3)] characters, each a letter, a digit, [+], [/] or
    the padding sign [=], and leaves the notebook as it was. *)
Theorem encode_image_shape image_path raw (s : @notebook W) :
  read_bytes image_path = Returned raw ->
  exists base64_image,
    encode_image image_path s = (Returned base64_image, s)
    /\ String.length base64_image = 4 * ((List.length raw + 2) / 3)
    /\ Forall payload_char (list_ascii_of_string base64_image).
Proof.
  intros R. exists (b64encode raw). split.
  - unfold encode_image, bind, lift. now rewrite R.
  - split; [apply b64encode_length|apply b64encode_chars].
Qed.

End Files.

Import Scenario.

Lemma encode_image_shape_witness :
  @read_bytes kennel "images/a.png" = Returned [x89; x50; x4e]
  /\ exists base64_image,
       @encode_image script kennel "images/a.png" (fresh [] [])
       = (Returned base64_image, fresh [] [])
       /\ String.length base64_image = 4
       /\ Forall payload_char (list_ascii_of_string base64_image).
Proof.
  split; [reflexivity|].
  exact (@encode_image_shape script kennel "images/a.png" [x89; x50; x4e]
           (fresh [] []) eq_refl).
Defined.

End EncodingFacts.

(** ** More on the batch cell *)

Module BatchFacts.
Import Py Base64 Base64Facts PyFacts Groq GroqFacts Json ImageClassification
       ClassificationFacts.

Section Notebook.
Context {W : Type} `{Client W} `{FileSystem} `{Loader}.
Abbreviation notebook := (@notebook W).

(** How a pass of the loop can raise. *)
Lemma classify_one_raised user_prompt image_file (s s1 : notebook) e :
  classify_one user_prompt image_file s = (Raised e, s1) ->
  globals s1 = globals s
  /\ (read_bytes (image_folder ++ image_file) = Raised e /\ s1 = s
      \/ exists raw o,
           read_bytes (image_folder ++ image_file) = Returned raw
           /\ calls s1
              = calls s
                ++ [Exchange (classification_request (b64encode raw) user_prompt) o]).
Proof.
  intros E.
  destruct (read_bytes (image_folder ++ image_file)) as [raw|e0] eqn:R.
  - destruct (create (classification_request (b64encode raw) user_prompt) (world s))
      as [o w'] eqn:C.
    rewrite (classify_one_eq _ _ _ _ _ _ R C) in E. cbv zeta in E.
    assert (S1 : s1 = logged s (classification_request (b64encode raw) user_prompt) o w').
    { destruct o as [reply|e1]; [|now injection E].
      destruct (loads reply) as [v|e1]; [|now injection E].
      destruct (setitem v _ _); [discriminate|now injection E]. }
    subst s1. split; [reflexivity|]. right. now exists raw, o.
  - rewrite (classify_one_unreadable _ _ _ _ R) in E. injection E as <- <-.
    split; [reflexivity|]. now left.
Qed.

(** X2. Whatever makes a pass of the batch loop raise, the loop ends
    there with that exception: no later file is worked on, the records
    made so far stay, and at most one request was sent for the file, none
    when the file could not be read. *)
Theorem batch_stops_at_failure user_prompt done image_file rest
        (s0 s s1 : notebook) e :
  for_each done (classify_one user_prompt) s0 = (Returned tt, s) ->
  classify_one user_prompt image_file s = (Raised e, s1) ->
  for_each (done ++ image_file :: rest) (classify_one user_prompt) s0
  = (Raised e, s1)
  /\ globals s1 = globals s
  /\ (read_bytes (image_folder ++ image_file) = Raised e /\ s1 = s
      \/ exists raw o,
           read_bytes (image_folder ++ image_file) = Returned raw
           /\ calls s1
              = calls s
                ++ [Exchange (classification_request (b64encode raw) user_prompt) o]).
Proof.
  intros D E. split.
  - rewrite (for_each_app _ _ _ _ _ D). now apply for_each_raises.
  - now apply classify_one_raised in E.
Qed.

(** X3. A reply that is valid JSON but not an object passes
    [image_classification], and the loop then raises a [TypeError] where
    it sets [image_file]. *)
Theorem batch_rejects_non_object user_prompt done image_file rest
        (s0 s : notebook) raw reply w' v :
  for_each done (classify_one user_prompt) s0 = (Returned tt, s) ->
  read_bytes (image_folder ++ image_file) = Returned raw ->
  create (classification_request (b64encode raw) user_prompt) (world s)
  = (Returned reply, w') ->
  loads reply = Returned v ->
  (forall d, v <> JDict d) ->
  fst (image_classification (b64encode raw) user_prompt s) = Returned v
  /\ exists e,
       exn_class e = "TypeError"
       /\ for_each (done ++ image_file :: rest) (classify_one user_prompt) s0
          = (Raised e,
             logged s (classification_request (b64encode raw) user_prompt)
                    (Returned reply) w').
Proof.
  intros D R C L N. split.
  - rewrite (image_classification_eq _ _ _ _ _ C). exact L.
  - destruct (setitem v "image_file" (JStr image_file)) as [record|e] eqn:S.
    + destruct v; cbn in S; try discriminate. now destruct (N items).
    + exists e. split.
      * destruct v; cbn in S;
          first [discriminate S | injection S as <-; reflexivity].
      * rewrite (for_each_app _ _ _ _ _ D). apply for_each_raises.
        rewrite (classify_one_eq _ _ _ _ _ _ R C). cbv zeta. now rewrite L, S.
Qed.

Lemma for_each_classify_completes user_prompt files :
  (forall f, In f files ->
             exists raw, read_bytes (image_folder ++ f) = Returned raw) ->
  (forall req w, exists reply d,
      fst (create req w) = Returned reply /\ loads reply = Returned (JDict d)) ->
  forall s0 : notebook,
    exists s', for_each files (classify_one user_prompt) s0 = (Returned tt, s').
Proof.
  intros Readable Parses.
  induction files as [|f files IH]; intros s0; cbn.
  - now eexists.
  - destruct (Readable f (or_introl eq_refl)) as [raw R].
    destruct (create (classification_request (b64encode raw) user_prompt)
                     (world s0)) as [o w'] eqn:C.
    destruct (Parses (classification_request (b64encode raw) user_prompt)
                     (world s0)) as (reply & d & E & P).
    rewrite C in E. cbn in E. subst o.
    unfold bind at 1. rewrite (classify_one_eq _ _ _ _ _ _ R C). cbv zeta.
    rewrite P. cbn. apply IH. intros g Hg. apply Readable. now right.
Qed.

(** X4. When every [.png] file of the folder can be read and the
    endpoint always answers with a JSON object, the batch cell runs
    through: one request and one record per [.png] file, each record an
    object that names a [.png] file of the folder. *)
Theorem batch_cell_yields_all user_prompt names (s : notebook) :
  listdir image_folder = Returned names ->
  (forall f, In f names -> is_png f = true ->
             exists raw, read_bytes (image_folder ++ f) = Returned raw) ->
  (forall req w, exists reply d,
      fst (create req w) = Returned reply /\ loads reply = Returned (JDict d)) ->
  exists s',
    batch_cell user_prompt s = (Returned tt, s')
    /\ List.length (globals s') = List.length (filter is_png names)
    /\ List.length (calls s')
       = List.length (calls s) + List.length (filter is_png names)
    /\ Forall (fun record =>
                 exists f, field "image_file" record = Some (JStr f)
                           /\ In f names /\ is_png f = true)
              (globals s').
Proof.
  intros L Readable Parses.
  assert (Png : Forall (fun f => In f names /\ is_png f = true)
                       (sorted (filter is_png names))).
  { apply Forall_forall. intros f Hin.
    apply (Permutation_in _ (Permutation_sym (sorted_perm _))) in Hin.
    now apply filter_In in Hin. }
  destruct (for_each_classify_completes user_prompt (sorted (filter is_png names))
              (fun f Hin => match proj1 (Forall_forall _ _) Png f Hin with
                            | conj A B => Readable f A B
                            end)
              Parses (Store (world s) (calls s) [])) as [s' E].
  exists s'. split.
  { unfold batch_cell, bind at 1, lift. rewrite L. exact E. }
  apply for_each_classify in E as (exs & recs & C & G & X). cbn in C, G.
  destruct (extraction_length _ _ _ _ X) as [Le Lr].
  rewrite G, C, length_app, Le, Lr, sorted_length. repeat split.
  clear - X Png. induction X; constructor.
  - inversion Png as [|? ? [A B]]; subst. exists image_file. split; [|now split].
    cbn. apply dict_get_set_same.
  - inversion Png; subst. auto.
Qed.

End Notebook.

Import Scenario.

Lemma batch_stops_at_failure_witness :
  let s := fresh [Returned (breed_reply "Beagle"); Raised connection_error] [] in
  exists s1 s2,
    for_each ["a.png"]
             (@classify_one script scripted kennel JsonReader.reader user_prompt) s
    = (Returned tt, s1)
    /\ @classify_one script scripted kennel JsonReader.reader user_prompt "b.png" s1
       = (Raised connection_error, s2)
    /\ for_each ["a.png"; "b.png"; "c.png"]
                (@classify_one script scripted kennel JsonReader.reader user_prompt) s
       = (Raised connection_error, s2)
    /\ List.length (globals s2) = 1.
Proof.
  intros s. eexists _, _.
  assert (D : for_each ["a.png"]
                (@classify_one script scripted kennel JsonReader.reader user_prompt) s
              = (Returned tt,
                 snd (for_each ["a.png"]
                        (@classify_one script scripted kennel JsonReader.reader
                           user_prompt) s)))
    by (vm_compute; reflexivity).
  assert (E : @classify_one script scripted kennel JsonReader.reader user_prompt "b.png"
                (snd (for_each ["a.png"]
                        (@classify_one script scripted kennel JsonReader.reader
                           user_prompt) s))
              = (Raised connection_error,
                 snd (@classify_one script scripted kennel JsonReader.reader
                        user_prompt "b.png"
                        (snd (for_each ["a.png"]
                                (@classify_one script scripted kennel
                                   JsonReader.reader user_prompt) s)))))
    by (vm_compute; reflexivity).
  split; [exact D|]. split; [exact E|].
  destruct (@batch_stops_at_failure script scripted kennel JsonReader.reader
              user_prompt ["a.png"] "b.png" ["c.png"] s _ _ connection_error D E)
    as (T & G & _).
  split; [exact T|]. rewrite G. reflexivity.
Defined.

Lemma batch_rejects_non_object_witness :
  let s := fresh [Returned "[1, 2]"] [] in
  @image_classification script scripted JsonReader.reader
    (b64encode [x89; x50; x4e]) user_prompt s
  = (Returned (JList [JInt 1; JInt 2]),
     logged s (classification_request (b64encode [x89; x50; x4e]) user_prompt)
            (Returned "[1, 2]") [])
  /\ exists e,
       exn_class e = "TypeError"
       /\ for_each ["a.png"; "b.png"]
                   (@classify_one script scripted kennel JsonReader.reader
                      user_prompt) s
          = (Raised e,
             logged s (classification_request (b64encode [x89; x50; x4e]) user_prompt)
                    (Returned "[1, 2]") []).
Proof.
  intros s. split; [vm_compute; reflexivity|].
  refine (proj2 (@batch_rejects_non_object script scripted kennel JsonReader.reader
                   user_prompt [] "a.png" ["b.png"] s s [x89; x50; x4e] "[1, 2]" []
                   (JList [JInt 1; JInt 2]) eq_refl eq_refl eq_refl _ _)).
  - vm_compute; reflexivity.
  - intros d; discriminate.
Defined.

Lemma batch_cell_yields_all_witness :
  exists s',
    @batch_cell nat (steady (breed_reply "Beagle")) kennel JsonReader.reader
      user_prompt (fresh 0 [])
    = (Returned tt, s')
    /\ List.length (globals s') = 2
    /\ List.length (calls s') = 2.
Proof.
  destruct (@batch_cell_yields_all nat (steady (breed_reply "Beagle")) kennel
              JsonReader.reader user_prompt ["b.png"; "notes.txt"; "a.png"]
              (fresh 0 []) eq_refl) as (s' & E & G & C & _).
  - intros f [<-|[<-|[<-|[]]]] P; try discriminate P; eexists; reflexivity.
  - intros req w. exists (breed_reply "Beagle"). eexists.
    split; [reflexivity|vm_compute; reflexivity].
  - exists s'. split; [exact E|]. split; [exact G|exact C].
Defined.

End BatchFacts.

(** ** More on the chatbot notebook *)

Module ScreeningFacts.
Import Py PyFacts Groq GroqFacts LlamaGuard GuardFacts.

Section Notebook.
Context {W : Type} `{Client W}.
Abbreviation notebook := (@notebook W).

Lemma screen_one_inv cats r (s s' : notebook) :
  screen_one cats r s = (Returned tt, s') ->
  exists pass,
    calls s' = calls s ++ pass_calls cats r pass
    /\ globals s' = globals s ++ pass_output pass.
Proof.
  unfold screen_one. intros E.
  apply bind_returned_inv in E as (m & s1 & G & E).
  rewrite generate_eq in G.
  destruct (create (generation_request cats r) (world s)) as [o1 w1] eqn:C1.
  rewrite (create_logged _ _ _ _ C1) in G. injection G as -> <-.
  apply bind_returned_inv in E as (v & s2 & G & E).
  unfold get_llamaguard_response in G.
  destruct (create (text_request guard_model m) w1) as [o2 w2] eqn:C2.
  rewrite (create_logged (G := list string) _ (logged s _ _ w1) _ w2 C2) in G.
  injection G as -> <-.
  unfold bind at 1 in E. rewrite print_eq in E.
  unfold bind at 1 in E. rewrite print_eq in E. rewrite print_eq in E.
  injection E as <-. exists (m, v). cbn. unfold pass_calls, pass_output. cbn.
  now rewrite <- !app_assoc.
Qed.

Lemma screening_inv cats (random : nat -> Q) passes_no (s s' : notebook) :
  for_each passes_no (fun i => screen_one cats (random i)) s = (Returned tt, s') ->
  exists passes,
    List.length passes = List.length passes_no
    /\ calls s' = calls s
                  ++ flat_map (fun ip => pass_calls cats (random (fst ip)) (snd ip))
                              (combine passes_no passes)
    /\ globals s' = globals s ++ flat_map pass_output passes.
Proof.
  revert s. induction passes_no as [|i l IH]; intros s E; cbn in E.
  - injection E as <-. exists []. cbn. now rewrite !app_nil_r.
  - apply bind_returned_inv in E as ([] & s1 & E1 & E2).
    apply screen_one_inv in E1 as (pass & C1 & G1).
    apply IH in E2 as (passes & L & C2 & G2).
    exists (pass :: passes). cbn [List.length combine flat_map fst snd].
    rewrite L, C2, G2, C1, G1, <- !app_assoc. auto.
Qed.

(** X5. The cell that tries Llama Guard on ten generated messages, when
    it runs through, has made ten passes in turn: in pass [i] one
    generation request, drawn by the [i]-th random number, and one
    moderation request on the very message that came back; it printed
    that message, the verdict as it came, and a blank line.  That is 20
    calls and 30 prints; no message is answered. *)
Theorem screening_cell_pairs cats random (s s' : notebook) :
  screening_cell cats random s = (Returned tt, s') ->
  exists passes,
    List.length passes = 10
    /\ calls s' = calls s
                  ++ flat_map (fun ip => pass_calls cats (random (fst ip)) (snd ip))
                              (combine (seq 0 10) passes)
    /\ globals s' = globals s ++ flat_map pass_output passes
    /\ List.length (calls s') = List.length (calls s) + 20
    /\ List.length (globals s') = List.length (globals s) + 30.
Proof.
  intros E. apply screening_inv in E as (passes & L & C & G).
  exists passes.
  assert (X : forall l ps,
             List.length ps = List.length l ->
             List.length (flat_map (fun ip => pass_calls cats (random (fst ip)) (snd ip))
                                   (combine l ps)) = 2 * List.length l).
  { induction l as [|i l IH]; intros [|p ps] Lp; try discriminate; [reflexivity|].
    cbn. injection Lp as Lp. rewrite (IH ps Lp). lia. }
  assert (Y : forall ps, List.length (flat_map pass_output ps) = 3 * List.length ps).
  { induction ps as [|p ps IH]; cbn; [reflexivity|]. rewrite IH. lia. }
  rewrite C, G, !length_app, (X _ _ L), Y, L. repeat split; auto.
Qed.

(** X6. When the moderation call raises, the filtering cell raises the
    same exception: it has sent the generation and the moderation
    request and nothing else, so the message was not answered, and it
    has printed nothing. *)
Theorem filtering_cell_fails_closed cats r (s : notebook) user_message w1 e w2 :
  create (generation_request cats r) (world s) = (Returned user_message, w1) ->
  create (text_request guard_model user_message) w1 = (Raised e, w2) ->
  filtering_cell cats r s
  = (Raised e,
     Store w2
           (calls s
            ++ [Exchange (generation_request cats r) (Returned user_message);
                Exchange (text_request guard_model user_message) (Raised e)])
           (globals s)).
Proof.
  intros C1 C2. unfold filtering_cell, bind at 1.
  rewrite generate_eq, (create_logged _ _ _ _ C1).
  unfold bind at 1, get_llamaguard_response.
  rewrite (create_logged (G := list string) _ (logged s _ _ w1) _ w2 C2).
  unfold logged. cbn. now rewrite <- app_assoc.
Qed.

End Notebook.

Import Scenario.

Lemma screening_cell_pairs_witness :
  let s' := snd (@screening_cell nat (steady "safe") "S1: Violent Crimes."
                   (fun i => (Z.of_nat i # 10)%Q) (fresh 0 [])) in
  @screening_cell nat (steady "safe") "S1: Violent Crimes."
    (fun i => (Z.of_nat i # 10)%Q) (fresh 0 [])
  = (Returned tt, s')
  /\ List.length (calls s') = 20
  /\ List.length (globals s') = 30.
Proof.
  intros s'.
  assert (E : @screening_cell nat (steady "safe") "S1: Violent Crimes."
                (fun i => (Z.of_nat i # 10)%Q) (fresh 0 [])
              = (Returned tt, s'))
    by (vm_compute; reflexivity).
  split; [exact E|].
  destruct (@screening_cell_pairs nat (steady "safe") _ _ _ _ E)
    as (passes & _ & _ & _ & C & G).
  split; [exact C|exact G].
Defined.

Lemma filtering_cell_fails_closed_witness :
  let s := fresh [Returned "Tell me a story"; Raised connection_error;
                  Returned "Once upon a time"] [] in
  @filtering_cell script scripted "S1: Violent Crimes." (3 # 4)%Q s
  = (Raised connection_error,
     Store [Returned "Once upon a time"]
           [Exchange (generation_request "S1: Violent Crimes." (3 # 4)%Q)
                     (Returned "Tell me a story");
            Exchange (text_request guard_model "Tell me a story")
                     (Raised connection_error)]
           []).
Proof.
  intros s.
  exact (@filtering_cell_fails_closed script scripted "S1: Violent Crimes." (3 # 4)%Q
           s "Tell me a story" _ connection_error _ eq_refl eq_refl).
Defined.

End ScreeningFacts.

(** ** More on the image moderation app *)

Module AppFacts.
Import Py PyFacts Groq GroqFacts ImageModeration ModerationFacts.

Section Notebook.
Context {W : Type} `{Client W} `{Http W} `{Imaging}.
Abbreviation notebook := (@notebook W).

(** X7. When the second of the two analyses of an uploaded image fails,
    [process_image] still returns: it shows the first analysis, and what
    it sends to the safety check as the image description is the error
    text of the second. *)
Theorem failed_analysis_is_still_checked img buffered url prompt api_key
        (s : notebook) o1 w1 e w2 :
  let ask :=
    analysis_request (image_url_part (Base64.data_uri (Base64.b64encode buffered)))
                     prompt api_key in
  save_jpeg img = Returned buffered ->
  create ask (world s) = (o1, w1) ->
  create ask w1 = (Raised e, w2) ->
  exists o3 s',
    process_image (Some img) url prompt api_key s
    = (Returned (text_of o1, text_of o3), s')
    /\ calls s'
       = calls s
         ++ [Exchange ask o1; Exchange ask (Raised e);
             Exchange (safety_request ("Error: " ++ exn_str e) api_key) o3].
Proof.
  intros ask J C1 C2.
  destruct (create (safety_request (text_of (Raised e)) api_key) w2)
    as [o3 w3] eqn:C3.
  assert (P : part_of (pil img)
              = Returned (image_url_part
                            (Base64.data_uri (Base64.b64encode buffered))))
    by (unfold part_of; now rewrite J).
  exists o3. eexists. cbn [process_image].
  rewrite (analyze_and_check_eq _ _ _ _ _ _ _ _ _ _ _ P C1 C2 C3).
  split; reflexivity.
Qed.

(** X8. [analyze_image] turns a failed call into the text [Error: ]
    followed by the exception's message, which is also what it returns
    when the model replies with that very text: its caller cannot tell
    the two apart. *)
Theorem failure_reads_like_a_reply image content prompt api_key
        (s1 s2 : notebook) e w1 w2 :
  part_of image = Returned content ->
  create (analysis_request content prompt api_key) (world s1) = (Raised e, w1) ->
  create (analysis_request content prompt api_key) (world s2)
  = (Returned ("Error: " ++ exn_str e)%string, w2) ->
  fst (analyze_image image prompt api_key s1)
  = Returned ("Error: " ++ exn_str e)%string
  /\ fst (analyze_image image prompt api_key s1)
     = fst (analyze_image image prompt api_key s2).
Proof.
  intros P A1 A2.
  rewrite (analyze_image_eq _ _ _ _ _ _ _ P A1), (analyze_image_eq _ _ _ _ _ _ _ P A2).
  split; reflexivity.
Qed.

Lemma analyze_and_check_returns image content prompt api_key (s : notebook) :
  part_of image = Returned content ->
  exists shown verdict s',
    analyze_and_check image prompt api_key s = (Returned (shown, verdict), s')
    /\ List.length (calls s') = List.length (calls s) + 3.
Proof.
  intros P.
  destruct (create (analysis_request content prompt api_key) (world s))
    as [o1 w1] eqn:C1.
  destruct (create (analysis_request content prompt api_key) w1)
    as [o2 w2] eqn:C2.
  destruct (create (safety_request (text_of o2) api_key) w2) as [o3 w3] eqn:C3.
  rewrite (analyze_and_check_eq _ _ _ _ _ _ _ _ _ _ _ P C1 C2 C3).
  eexists _, _, _. split; [reflexivity|]. cbn. rewrite length_app. cbn. lia.
Qed.

(** X9. Without an upload [process_image] never raises, whatever the
    web, the imaging library and the endpoint do: it returns a pair of
    texts, having sent either no request, when it reports one of its two
    fixed messages with an empty verdict, or exactly three. *)
Theorem process_image_without_upload_returns url prompt api_key (s : notebook) :
  exists shown verdict s',
    process_image None url prompt api_key s = (Returned (shown, verdict), s')
    /\ (List.length (calls s') = List.length (calls s)
        /\ verdict = EmptyString
        /\ (shown = invalid_url_message \/ shown = no_image_message)
        \/ List.length (calls s') = List.length (calls s) + 3).
Proof.
  unfold process_image. destruct (truthy url) eqn:T.
  - unfold try_except, bind at 1.
    destruct (requests_get (url_text url) (world s)) as [o w'] eqn:G.
    rewrite (http_get_eq _ _ _ _ G). destruct o as [data|e].
    + unfold bind at 1, lift. destruct (Image_open data) as [img|e].
      * destruct (analyze_and_check_returns (link (url_text url)) _ prompt api_key
                    (Store w' (calls s) (globals s)) eq_refl)
          as (shown & verdict & s' & -> & L).
        exists shown, verdict, s'. split; [reflexivity|]. right. exact L.
      * eexists _, _, _. split; [reflexivity|]. left. cbn. auto.
    + eexists _, _, _. split; [reflexivity|]. left. cbn. auto.
  - eexists _, _, _. split; [reflexivity|]. left. cbn. auto.
Qed.

(** X10. An uploaded image that cannot be written as JPEG makes
    [process_image] raise the imaging library's exception: the encoding
    stands outside the [try] of [analyze_image].  No request is sent. *)
Theorem process_image_upload_unencodable img e url prompt api_key (s : notebook) :
  save_jpeg img = Raised e ->
  process_image (Some img) url prompt api_key s = (Raised e, s).
Proof.
  intros J. cbn [process_image]. unfold analyze_and_check.
  now rewrite (bind_raised _ _ _ _ _ (analyze_image_unencodable _ _ _ _ _ J)).
Qed.

End Notebook.

Import Scenario.

Lemma failed_analysis_is_still_checked_witness :
  let s := fresh [Returned "A cat on a sofa."; Raised connection_error;
                  Returned "safe"] tt in
  let ask :=
    analysis_request
      (image_url_part (Base64.data_uri (Base64.b64encode cat_photo)))
      "Describe the image content." "gsk" in
  exists o3 s',
    @process_image script scripted one_page pixels (Some cat_photo) None
      "Describe the image content." "gsk" s
    = (Returned ("A cat on a sofa.", text_of o3), s')
    /\ calls s'
       = [Exchange ask (Returned "A cat on a sofa.");
          Exchange ask (Raised connection_error);
          Exchange (safety_request "Error: Connection error." "gsk") o3].
Proof.
  intros s ask.
  exact (@failed_analysis_is_still_checked script scripted one_page pixels
           cat_photo cat_photo None "Describe the image content." "gsk" s
           (Returned "A cat on a sofa.") _ connection_error _
           eq_refl eq_refl eq_refl).
Defined.

Lemma failure_reads_like_a_reply_witness :
  fst (@analyze_image script scripted pixels (link cat_url)
         "Describe the image content." "gsk"
         (fresh [Raised connection_error] tt))
  = Returned "Error: Connection error."
  /\ fst (@analyze_image script scripted pixels (link cat_url)
            "Describe the image content." "gsk"
            (fresh [Raised connection_error] tt))
     = fst (@analyze_image script scripted pixels (link cat_url)
              "Describe the image content." "gsk"
              (fresh [Returned "Error: Connection error."] tt)).
Proof.
  exact (@failure_reads_like_a_reply script scripted pixels (link cat_url) _
           "Describe the image content." "gsk"
           (fresh [Raised connection_error] tt)
           (fresh [Returned "Error: Connection error."] tt)
           connection_error [] [] eq_refl eq_refl eq_refl).
Defined.

Lemma process_image_upload_unencodable_witness :
  @process_image script scripted one_page layered (Some (cat_photo, true)) None
    "Describe the image content." "gsk" (fresh two_descriptions tt)
  = (Raised (Exception "OSError" "cannot write mode RGBA as JPEG"),
     fresh two_descriptions tt).
Proof.
  exact (@process_image_upload_unencodable script scripted one_page layered
           (cat_photo, true) _ None "Describe the image content." "gsk"
           (fresh two_descriptions tt) eq_refl).
Defined.

End AppFacts.

(** ** More on the mixture of agents *)

Module PipelineFacts.
Import Py PyFacts MixtureOfAgents MoAFacts.

Lemma numbered_app i outs more :
  numbered i (outs ++ more)
  = (numbered i outs ++ numbered (i + List.length outs) more)%string.
Proof.
  revert i. induction outs as [|o outs IH]; intros i; cbn [numbered app List.length].
  - now rewrite Nat.add_0_r.
  - rewrite IH, <- Nat.add_succ_comm, !append_assoc. reflexivity.
Qed.

(** X11. [concat_response] numbers the layer's outputs from 0 in the
    order of the mapping, one per line, between the two halves of the
    reference prompt: the output at position [i] stands on the line
    that begins with [i], after the lines of the outputs before it and
    before those of the outputs after it. *)
Theorem concat_response_numbers inputs i name out :
  nth_error inputs i = Some (name, out) ->
  concat_response inputs
  = (before REFERENCE_SYSTEM_PROMPT
     ++ numbered 0 (map snd (firstn i inputs))
     ++ (str_of_nat i ++ ". " ++ out ++ newline)
     ++ numbered (S i) (map snd (skipn (S i) inputs))
     ++ after REFERENCE_SYSTEM_PROMPT)%string.
Proof.
  intros N. unfold concat_response, format.
  assert (L : List.length (firstn i inputs) = i).
  { apply firstn_length_le. apply Nat.lt_le_incl, nth_error_Some. congruence. }
  assert (E : inputs = firstn i inputs ++ (name, out) :: skipn (S i) inputs).
  { clear L. revert i N. induction inputs as [|x l IH]; intros [|i] N; cbn in *;
      try discriminate.
    - now injection N as ->.
    - f_equal. now apply IH. }
  rewrite E at 1. rewrite map_app, numbered_app, length_map, L. cbn [map snd numbered plus].
  rewrite !append_assoc. reflexivity.
Qed.

Section Pipeline.
Context {W : Type} `{ChatGroq W}.
Abbreviation nb := (notebook W).
Abbreviation term := (@terminal W).

Lemma round_events_length layer inp outs :
  List.length outs = List.length layer ->
  List.length (round_events layer inp outs) = List.length layer.
Proof.
  intros L. unfold round_events. rewrite length_map, length_combine, L.
  apply Nat.min_id.
Qed.

Lemma cycles_events_length layer q memory rounds :
  Forall (fun outs => List.length outs = List.length layer) rounds ->
  forall inp,
    List.length (cycles_events layer q memory inp rounds)
    = List.length rounds * List.length layer.
Proof.
  induction 1 as [|outs rounds Ho _ IH]; intros inp; cbn; [reflexivity|].
  now rewrite length_app, round_events_length, IH.
Qed.

(** X12. The cycle loop, for any number of cycles and any layer: when
    it returns it has left the memory alone and called the layer's
    agents [cycles * len(layer)] times; with no cycle the input goes on
    to the main agent as it is and nothing is called; otherwise the
    input it hands on carries the query and the memory as it was. *)
Theorem cycle_loop_calls cycles layer q inp (s : nb) inp' s' :
  cycle_loop cycles layer q inp s = (Returned inp', s') ->
  CHAT_MEMORY s' = CHAT_MEMORY s
  /\ List.length (trace s') = List.length (trace s) + cycles * List.length layer
  /\ (cycles = 0 -> inp' = inp /\ s' = s)
  /\ (0 < cycles ->
      input inp' = q /\ history inp' = CHAT_MEMORY s).
Proof.
  intros E.
  assert (M : CHAT_MEMORY s' = CHAT_MEMORY s).
  { clear - E. revert inp s E. induction cycles as [|n IH]; intros inp s E; cbn in E.
    - now injection E as <- <-.
    - apply bind_returned_inv in E as (helper & s1 & L & E).
      apply layer_invoke_extends in L as [M1 _].
      apply IH in E. congruence. }
  split; [exact M|].
  pose proof E as E0.
  apply cycle_loop_returned in E as (rounds & Lr & Fr & Tr & ->).
  split. { rewrite Tr, length_app, cycles_events_length, Lr; auto. }
  split. { intros ->. cbn in E0. now injection E0 as <- <-. }
  intros Pos. destruct rounds as [|outs rounds]; [cbn in Lr; lia|]. clear E0 Tr Lr Pos.
  inversion Fr as [|? ? Ho Fr']; subst. cbn [final_input]. clear Fr.
  revert outs Ho. induction Fr' as [|outs' rounds Ho' _ IH]; intros outs Ho; cbn.
  - split; reflexivity.
  - apply IH, Ho'.
Qed.


Lemma answered_not_streamed a evs :
  Forall (fun ev => is_answered ev = true) evs -> streamings a evs = 0.
Proof.
  unfold streamings. induction 1 as [|ev evs Hev _ IH]; [reflexivity|].
  destruct ev as [b i [out|e]|]; try discriminate. exact IH.
Qed.

Lemma round_events_answered layer inp outs :
  Forall (fun ev => is_answered ev = true) (round_events layer inp outs).
Proof. unfold round_events. apply Forall_map, Forall_forall. reflexivity. Qed.

Lemma cycles_events_answered layer q memory rounds :
  forall inp,
    Forall (fun ev => is_answered ev = true)
           (cycles_events layer q memory inp rounds).
Proof.
  induction rounds as [|outs rounds IH]; intros inp; cbn; [constructor|].
  apply Forall_app. split; [apply round_events_answered|apply IH].
Qed.

Lemma run_parallel_raised steps inp (s : nb) e s' :
  run_parallel steps inp s = (Raised e, s') ->
  exists added, trace s' = trace s ++ added /\ broke_at e added.
Proof.
  revert s. induction steps as [|[name a] steps IH]; intros s E; cbn in E.
  - discriminate.
  - apply bind_raised_inv in E as [E|(out & s1 & A & E)].
    + apply agent_invoke_inv in E as (T & _). exists [Invoked a inp (Raised e)].
      split; [exact T|]. exists [], a, inp. now split.
    + apply agent_invoke_inv in A as (T & _).
      apply bind_raised_inv in E as [E|(outs & s2 & _ & E)]; [|discriminate].
      apply IH in E as (added & T2 & pre & b & i & -> & F).
      exists (Invoked a inp (Returned out) :: pre ++ [Invoked b i (Raised e)]).
      split. { rewrite T2, T, <- app_assoc. reflexivity. }
      exists (Invoked a inp (Returned out) :: pre), b, i. split; [reflexivity|].
      now constructor.
Qed.

Lemma cycle_loop_raised n layer q inp (s : nb) e s' :
  cycle_loop n layer q inp s = (Raised e, s') ->
  exists added, trace s' = trace s ++ added /\ broke_at e added.
Proof.
  revert inp s. induction n as [|n IH]; intros inp s E; cbn in E; [discriminate|].
  apply bind_raised_inv in E as [E|(helper & s1 & L & E)].
  - unfold layer_invoke in E.
    apply bind_raised_inv in E as [E|(? & ? & _ & E)]; [|discriminate].
    now apply run_parallel_raised in E.
  - unfold layer_invoke in L. apply bind_returned_inv in L as (named & s1' & R & L).
    injection L as <- <-.
    apply run_parallel_returned in R as (outs & _ & _ & T1).
    apply IH in E as (added & T2 & pre & b & i & -> & F).
    exists (round_events layer inp outs ++ pre ++ [Invoked b i (Raised e)]).
    split. { rewrite T2, T1, <- app_assoc. reflexivity. }
    exists (round_events layer inp outs ++ pre), b, i.
    split; [now rewrite <- app_assoc|].
    apply Forall_app. split; [apply round_events_answered|exact F].
Qed.

(** What a turn adds to the trace, by the way it ends. *)
Lemma turn_trace q (s : nb) r s' :
  turn q s = (r, s') ->
  CHAT_MEMORY s' = match r with
                   | Returned chunks =>
                       CHAT_MEMORY s ++ [HumanMessage q; AIMessage (joined EmptyString chunks)]
                   | Raised _ => CHAT_MEMORY s
                   end
  /\ exists added,
       trace s' = trace s ++ added
       /\ Forall (fun ev => history (event_input ev) = CHAT_MEMORY s) added
       /\ ((exists e, r = Raised e /\ broke_at e added)
           \/ exists layer_calls inp chunks failure,
                added = layer_calls ++ [Streamed MAIN_AGENT inp chunks failure]
                /\ Forall (fun ev => is_answered ev = true) layer_calls
                /\ List.length layer_calls = CYCLES * 3
                /\ r = match failure with
                       | None => Returned chunks
                       | Some e => Raised e
                       end).
Proof.
  intros T. rewrite turn_eq in T.
  destruct (cycle_loop _ _ _ _ s) as [[inp|e] s1] eqn:C.
  - pose proof (cycle_loop_history CYCLES LAYER_AGENT q
                  (LlmInput q (CHAT_MEMORY s) EmptyString) s inp s1 eq_refl C) as Hh.
    pose proof (created_extends _ _ _ _ C) as X.
    destruct (llm_stream _ _ _ _) as [[cs failure] w'].
    pose proof (extends_trans _ _ _ _ X
                  (streamed_extends _ s1 inp (cs, failure) w' Hh))
      as [M (added & Tr & Fa)].
    apply cycle_loop_returned in C as (rounds & L & F & T1 & ->).
    assert (A : added = cycles_events LAYER_AGENT q (CHAT_MEMORY s)
                          (LlmInput q (CHAT_MEMORY s) EmptyString) rounds
                        ++ [Streamed MAIN_AGENT
                              (final_input LAYER_AGENT q (CHAT_MEMORY s)
                                 (LlmInput q (CHAT_MEMORY s) EmptyString) rounds)
                              cs failure]).
    { cbn [streamed trace fst snd] in Tr. rewrite T1, <- app_assoc in Tr.
      now apply app_inv_head in Tr. }
    cbn [fst snd] in T.
    assert (Len : List.length (cycles_events LAYER_AGENT q (CHAT_MEMORY s)
                                 (LlmInput q (CHAT_MEMORY s) EmptyString) rounds)
                  = CYCLES * 3).
    { destruct rounds as [|r1 [|r2 [|r3 [|]]]]; try discriminate L.
      inversion F as [|? ? F1 F']; subst. inversion F' as [|? ? F2 F'']; subst.
      inversion F'' as [|? ? F3 _]; subst.
      destruct r1 as [|? [|? [|? [|]]]]; try discriminate F1.
      destruct r2 as [|? [|? [|? [|]]]]; try discriminate F2.
      destruct r3 as [|? [|? [|? [|]]]]; try discriminate F3. reflexivity. }
    destruct failure as [e|]; injection T as <- <-.
    + split; [exact M|]. exists added. split; [exact Tr|]. split; [exact Fa|].
      right. eexists _, _, cs, (Some e). split; [exact A|].
      split; [apply cycles_events_answered|]. split; [exact Len|reflexivity].
    + split; [cbn; now rewrite <- M|]. exists added. split; [exact Tr|].
      split; [exact Fa|].
      right. eexists _, _, cs, None. split; [exact A|].
      split; [apply cycles_events_answered|]. split; [exact Len|reflexivity].
  - injection T as <- <-. pose proof (created_extends _ _ _ _ C) as [M (added & Tr & Fa)].
    split; [exact M|]. exists added. split; [exact Tr|]. split; [exact Fa|].
    left. exists e. split; [reflexivity|].
    apply cycle_loop_raised in C as (added' & Tr' & B).
    rewrite Tr' in Tr. apply app_inv_head in Tr. now subst.
Qed.


Lemma resumes_through q failure rest :
  forall response c (s : nb),
    exists response' c',
      resumes (Suspended q response c rest failure) s rest
              (Suspended q response' c' [] failure) s.
Proof.
  induction rest as [|c1 rest IH]; intros response c s.
  - exists response, c. constructor.
  - destruct (IH (response ++ c)%string c1 s) as (response' & c' & R).
    exists response', c'. econstructor; [|exact R].
    cbn [next]. now rewrite advance_eq.
Qed.


(** X14. When a turn ends with an exception and its last event is a
    stream, the stream is the main agent's and broke off with that
    exception; the consumer was handed every chunk that had arrived, one
    [next] each, before the [next] that raised, and the turn is not
    stored. *)
Theorem broken_stream_delivers_chunks q (s : nb) e s' earlier a inp chunks failure :
  turn q s = (Raised e, s') ->
  trace s' = earlier ++ [Streamed a inp chunks failure] ->
  a = MAIN_AGENT /\ failure = Some e
  /\ CHAT_MEMORY s' = CHAT_MEMORY s
  /\ exists g s1,
       resumes (chat_stream q) s chunks g s1
       /\ next g s1 = (Raised e, s').
Proof.
  intros T Tr. pose proof T as T0. rewrite turn_eq in T.
  unfold chat_stream. 
  destruct (cycle_loop _ _ _ _ s) as [[i|e'] s1] eqn:C.
  - pose proof (created_extends _ _ _ _ C) as [M _].
    pose proof (next_created q s) as N. rewrite C in N.
    destruct (llm_stream _ _ _ _) as [[cs fl] w']. cbn [fst snd] in T, N.
    destruct fl as [e0|]; [|discriminate]. injection T as -> <-.
    cbn [streamed trace fst snd] in Tr. apply app_inj_tail in Tr as [_ Ev].
    injection Ev as <- <- <- <-.
    split; [reflexivity|]. split; [reflexivity|]. split; [exact M|].
    rewrite advance_eq in N. destruct cs as [|c rest].
    + eexists _, _. split; [constructor|exact N].
    + destruct (resumes_through q (Some e) rest EmptyString c
                  (streamed s1 i (c :: rest, Some e) w')) as (r' & c' & R).
      eexists _, _. split; [econstructor; [exact N|exact R]|].
      cbn [next]. now rewrite advance_eq.
  - injection T as -> <-.
    apply cycle_loop_raised in C as (added & Tr' & B).
    destruct B as (pre & b & i & -> & _). rewrite Tr', app_assoc in Tr.
    apply app_inj_tail in Tr as [_ Ev]. discriminate.
Qed.

(** X15. After a completed turn, every agent called in the next turn
    (and at least one is) is given the memory of before extended by the
    question and the joined chunks of the completed turn. *)
Theorem next_turn_reads_memory q1 q2 (s : nb) chunks s1 r s2 :
  turn q1 s = (Returned chunks, s1) ->
  turn q2 s1 = (r, s2) ->
  exists added,
    trace s2 = trace s1 ++ added
    /\ added <> []
    /\ Forall (fun ev => history (event_input ev)
                         = CHAT_MEMORY s
                           ++ [HumanMessage q1; AIMessage (joined EmptyString chunks)])
              added.
Proof.
  intros T1 T2. apply turn_trace in T1 as (M1 & _).
  apply turn_trace in T2 as (_ & added & Tr & Fa & Shape).
  exists added. split; [exact Tr|]. split.
  - destruct Shape as [(e & _ & pre & a & i & -> & _)|(calls & i & cs & fl & -> & _)];
      now destruct pre + destruct calls.
  - now rewrite <- M1.
Qed.

(** X16. When every [invoke] returns and no stream breaks off, a turn
    runs through: it returns the chunks, has made [CYCLES * 3 + 1]
    calls, and has stored the question and the joined chunks. *)
Theorem turn_goes_through q (s : nb) :
  (forall m t p w, exists out, fst (llm_invoke m t p w) = Returned out) ->
  (forall m t p w, snd (fst (llm_stream m t p w)) = None) ->
  exists chunks s',
    turn q s = (Returned chunks, s')
    /\ List.length (trace s')
       = List.length (trace s) + CYCLES * List.length LAYER_AGENT + 1
    /\ CHAT_MEMORY s'
       = CHAT_MEMORY s ++ [HumanMessage q; AIMessage (joined EmptyString chunks)].
Proof.
  intros Ok Whole. destruct (turn_completes q s Ok Whole) as (chunks & s' & T).
  exists chunks, s'. split; [exact T|].
  apply turn_trace in T as (M & added & Tr & _ & Shape). split; [|exact M].
  destruct Shape as [(e & D & _)|(calls & i & cs & fl & -> & _ & L & _)];
    [discriminate|].
  rewrite Tr, !length_app, L. cbn [List.length].
  change (List.length LAYER_AGENT) with 3. lia.
Qed.


Lemma print_stream_suspended q failure rest :
  forall response c fuel (t : term),
    List.length rest < fuel ->
    print_stream fuel (Suspended q response c rest failure) t =
    match failure with
    | None => (Returned tt,
               Terminal (saved (book t) q (joined (response ++ c) rest))
                        (stdout t ++ rest))
    | Some e => (Raised e, Terminal (book t) (stdout t ++ rest))
    end.
Proof.
  induction rest as [|c' rest IH]; intros response c fuel t Hf;
    (destruct fuel as [|fuel]; [cbn in Hf; lia|]); cbn [print_stream].
  - unfold bind, on_book. cbn [next]. rewrite advance_eq, app_nil_r.
    destruct failure; [now destruct t|reflexivity].
  - unfold bind at 1, on_book. cbn [next]. rewrite advance_eq.
    unfold bind, write. rewrite IH by (cbn in Hf; lia). cbn [book stdout].
    rewrite <- app_assoc. now destruct failure.
Qed.

Lemma print_chunks_eq q (t : term) :
  print_chunks (chat_stream q) t =
  match cycle_loop CYCLES LAYER_AGENT q
                   (LlmInput q (CHAT_MEMORY (book t)) EmptyString) (book t) with
  | (Raised e, s1) => (Raised e, Terminal s1 (stdout t))
  | (Returned inp, s1) =>
      let (r, w') := llm_stream (model_name MAIN_AGENT) (temperature MAIN_AGENT)
                                (format_prompt MAIN_AGENT inp) (world s1) in
      match snd r with
      | None => (Returned tt,
                 Terminal (saved (streamed s1 inp r w') q (joined EmptyString (fst r)))
                          (stdout t ++ fst r))
      | Some e => (Raised e, Terminal (streamed s1 inp r w') (stdout t ++ fst r))
      end
  end.
Proof.
  unfold print_chunks, bind at 1, on_book. unfold chat_stream. rewrite next_created.
  destruct (cycle_loop _ _ _ _ (book t)) as [[inp|e] s1]; [|reflexivity].
  destruct (llm_stream _ _ _ _) as [[chunks failure] w']. cbn [fst snd].
  rewrite advance_eq. destruct chunks as [|c rest].
  - rewrite app_nil_r. now destruct failure.
  - unfold bind, write. rewrite print_stream_suspended by (cbn; lia).
    cbn [book stdout]. rewrite <- app_assoc. now destruct failure.
Qed.

(** Printing a turn's chunks is the turn, with the chunks on the
    standard output. *)
Lemma print_chunks_returned q (t t' : term) :
  print_chunks (chat_stream q) t = (Returned tt, t') ->
  exists chunks,
    turn q (book t) = (Returned chunks, book t')
    /\ stdout t' = stdout t ++ chunks.
Proof.
  rewrite print_chunks_eq, turn_eq.
  destruct (cycle_loop _ _ _ _ (book t)) as [[inp|e] s1]; [|discriminate].
  destruct (llm_stream _ _ _ _) as [[chunks failure] w']. cbn [fst snd].
  destruct failure; [discriminate|]. intros E. injection E as <-.
  now exists chunks.
Qed.

Lemma chat_loop_cons inp rest (t : term) :
  chat_loop (inp :: rest) t =
  if String.eqb (lower inp) "quit"
  then (Returned rest, Terminal (book t) (stdout t ++ farewell inp))
  else bind (print_chunks (chat_stream inp)) (fun _ => chat_loop rest)
            (Terminal (book t)
                      (stdout t ++ [(newline ++ "Ask a question: ")%string;
                                    (newline ++ "User: " ++ inp ++ newline)%string;
                                    "AI: "])).
Proof.
  cbn [chat_loop]. unfold bind at 1, write at 1. unfold bind at 1, write at 1.
  cbn [book stdout].
  destruct (String.eqb (lower inp) "quit").
  - unfold bind, write, ret, farewell. cbn [book stdout].
    now rewrite <- !app_assoc.
  - unfold bind at 1, write at 1. cbn [book stdout]. now rewrite <- !app_assoc.
Qed.




End Pipeline.

Import Scenario.

Lemma concat_response_numbers_witness :
  concat_response [("layer_agent_1", "plan"); ("layer_agent_2", "thought")]
  = (before REFERENCE_SYSTEM_PROMPT
     ++ ("0. plan" ++ newline)
     ++ ("1. thought" ++ newline)
     ++ after REFERENCE_SYSTEM_PROMPT)%string.
Proof.
  exact (concat_response_numbers
           [("layer_agent_1", "plan"); ("layer_agent_2", "thought")] 1
           "layer_agent_2" "thought" eq_refl).
Defined.

Lemma cycle_loop_calls_witness :
  let run := @cycle_loop studio scripted_llm CYCLES LAYER_AGENT "Hi"
               (LlmInput "Hi" [] EmptyString) opening in
  exists inp',
    run = (Returned inp', snd run)
    /\ CHAT_MEMORY (snd run) = []
    /\ List.length (trace (snd run)) = 9
    /\ input inp' = "Hi".
Proof.
  intros run.
  assert (E : run = (Returned (match fst run with
                               | Returned inp' => inp'
                               | Raised _ => LlmInput EmptyString [] EmptyString
                               end), snd run))
    by (vm_compute; reflexivity).
  eexists. split; [exact E|].
  destruct (@cycle_loop_calls studio scripted_llm CYCLES LAYER_AGENT "Hi"
              (LlmInput "Hi" [] EmptyString) opening _ _ E)
    as (M & L & _ & P).
  split; [exact M|]. split; [exact L|].
  exact (proj1 (P (Nat.lt_0_succ 2))).
Defined.


Lemma broken_stream_delivers_chunks_witness :
  let s' := snd (@turn studio scripted_llm "Hi" breaking_stream) in
  @turn studio scripted_llm "Hi" breaking_stream = (Raised connection_error, s')
  /\ CHAT_MEMORY s' = []
  /\ exists g s1,
       @resumes studio scripted_llm (chat_stream "Hi") breaking_stream ["Hel"] g s1
       /\ @next studio scripted_llm g s1 = (Raised connection_error, s').
Proof.
  intros s'.
  assert (T : @turn studio scripted_llm "Hi" breaking_stream
              = (Raised connection_error, s'))
    by (vm_compute; reflexivity).
  assert (Tr : trace s'
               = removelast (trace s')
                 ++ [Streamed MAIN_AGENT
                       (event_input (last (trace s')
                                          (Streamed MAIN_AGENT
                                             (LlmInput EmptyString [] EmptyString)
                                             [] None)))
                       ["Hel"] (Some connection_error)])
    by (vm_compute; reflexivity).
  destruct (@broken_stream_delivers_chunks studio scripted_llm "Hi" breaking_stream
              _ _ _ _ _ _ _ T Tr) as (_ & _ & M & R).
  split; [exact T|]. split; [exact M|exact R].
Defined.

Lemma next_turn_reads_memory_witness :
  let s1 := snd (@turn studio scripted_llm "Hi" opening) in
  let s2 := snd (@turn studio scripted_llm "And then?" s1) in
  @turn studio scripted_llm "Hi" opening = (Returned ["Hel"; "lo"], s1)
  /\ exists added,
       trace s2 = trace s1 ++ added
       /\ added <> []
       /\ Forall (fun ev => history (event_input ev)
                            = [HumanMessage "Hi"; AIMessage "Hello"])
                 added.
Proof.
  intros s1 s2.
  assert (T1 : @turn studio scripted_llm "Hi" opening = (Returned ["Hel"; "lo"], s1))
    by (vm_compute; reflexivity).
  split; [exact T1|].
  exact (@next_turn_reads_memory studio scripted_llm "Hi" "And then?" opening
           _ _ _ s2 T1 (surjective_pairing _)).
Defined.

Lemma turn_goes_through_witness :
  exists chunks s',
    @turn nat steady_llm "Hi" (Notebook 0 [] []) = (Returned chunks, s')
    /\ List.length (trace s') = 10
    /\ CHAT_MEMORY s' = [HumanMessage "Hi"; AIMessage (joined EmptyString chunks)].
Proof.
  exact (@turn_goes_through nat steady_llm "Hi" (Notebook 0 [] [])
           (fun m _ _ _ => ex_intro _ _ eq_refl) (fun _ _ _ _ => eq_refl)).
Defined.


End PipelineFacts.
